(** * LMArena Bridge: the distributed browser client

    A shallow embedding of [distributed_clients/browser_client.py]: the
    [BrowserClient] class with its registration, its polling loop, the
    processing of one assigned request and the three report calls.

    Conventions of the embedding.
    - Python [int]s are [Z]; Python [float]s (and the numbers of a JSON
      document) are read as exact rationals [Q]: the products [i * 1.5] and
      [i * 0.8] and the quotients of the metrics are exact, rounding is not
      modelled.  Equality of such numbers is [==]; [min] and [max] are
      [Qmin] and [Qmax], which pick their first argument on a tie as Python
      does.
    - A coroutine is a function of the machine state that returns a result
      (a value or a raised exception), the next machine state and the list
      of the effects it performed, in order.  [await] is sequencing: the
      awaiting coroutine goes on when the awaited one has returned.
    - What the outside world answers (HTTP replies, the clock, how an
      exception prints) is an environment [env], fixed for a run.  A
      cancellation reaches a coroutine as the [CancelledError] raised by
      the POST it is waiting for.  No shutdown signal arrives during the
      turns of the loop that are observed: [running] changes by [start]
      and [stop] only.
    - Every effect is recorded with the worker's fields as they are at that
      moment: this is what another task of the event loop ([stats_task])
      can observe at a suspension point. *)

From Stdlib Require Import ZArith QArith Qminmax Bool List String Ascii Lia Lqa.
Import ListNotations.

Local Open Scope string_scope.
Local Open Scope Z_scope.
Local Open Scope Q_scope.

(** ** JSON documents and Python's view of them *)

Module Json.

#[local] Set Warnings "-register-all".

Inductive json : Type :=
| JNull
| JBool (b : bool)
| JNum (q : Q)
| JStr (s : string)
| JList (items : list json)
| JObj (fields : list (string * json)).

(** [d.get(k)] on the fields of a dict (keys are unique in a parsed
    document; the first binding is the binding). *)
Fixpoint assoc (k : string) (fields : list (string * json)) : option json :=
  match fields with
  | [] => None
  | (k', v) :: rest => if String.eqb k k' then Some v else assoc k rest
  end.

(** Python truth value of a parsed JSON value. *)
Definition truthy (v : json) : bool :=
  match v with
  | JNull => false
  | JBool b => b
  | JNum q => negb (Qeq_bool q 0)
  | JStr s => match s with EmptyString => false | _ => true end
  | JList items => match items with [] => false | _ => true end
  | JObj fields => match fields with [] => false | _ => true end
  end.

(** The values Python orders against the integer [30]: numbers, and
    booleans (which are integers).  Anything else makes [min] raise. *)
Definition as_number (v : json) : option Q :=
  match v with
  | JNum q => Some q
  | JBool b => Some (if b then 1 else 0)
  | _ => None
  end.

Definition of_Z (z : Z) : json := JNum (inject_Z z).
Definition of_nat (n : nat) : json := JNum (inject_Z (Z.of_nat n)).

End Json.
Import Json.

(** ** Exceptions *)

Inductive exn : Type :=
| KeyError (key : string)
| TypeError
| AttributeError
| JSONDecodeError
| RegistrationFailed (status : Z) (error_text : string)
| TransportError (what : string)   (* aiohttp.ClientError, asyncio.TimeoutError, ... *)
| CancelledError.                  (* a BaseException: not caught by [except Exception] *)

Definition is_Exception (e : exn) : bool :=
  match e with
  | CancelledError => false
  | _ => true
  end.

(** ** The worker object *)

(** The fields of [BrowserClient] that the methods below read or write.
    ([session], [last_heartbeat] and [last_poll_time] are never read.) *)
Record client : Type := mkClient {
  api_base_url : string;
  client_id : string;
  session_id : json;                (* [None] is [JNull] *)
  max_concurrent : Z;
  current_load : Z;
  running : bool;
  total_requests : Z;
  successful_requests : Z;
  total_response_time : Q;
  base_poll_interval : Q;
  current_poll_interval : Q
}.

Definition set_session_id (v : json) (c : client) : client :=
  mkClient (api_base_url c) (client_id c) v (max_concurrent c)
    (current_load c) (running c) (total_requests c) (successful_requests c)
    (total_response_time c) (base_poll_interval c) (current_poll_interval c).

Definition set_current_load (v : Z) (c : client) : client :=
  mkClient (api_base_url c) (client_id c) (session_id c) (max_concurrent c)
    v (running c) (total_requests c) (successful_requests c)
    (total_response_time c) (base_poll_interval c) (current_poll_interval c).

Definition set_running (v : bool) (c : client) : client :=
  mkClient (api_base_url c) (client_id c) (session_id c) (max_concurrent c)
    (current_load c) v (total_requests c) (successful_requests c)
    (total_response_time c) (base_poll_interval c) (current_poll_interval c).

Definition set_total_requests (v : Z) (c : client) : client :=
  mkClient (api_base_url c) (client_id c) (session_id c) (max_concurrent c)
    (current_load c) (running c) v (successful_requests c)
    (total_response_time c) (base_poll_interval c) (current_poll_interval c).

Definition set_successful_requests (v : Z) (c : client) : client :=
  mkClient (api_base_url c) (client_id c) (session_id c) (max_concurrent c)
    (current_load c) (running c) (total_requests c) v
    (total_response_time c) (base_poll_interval c) (current_poll_interval c).

Definition set_total_response_time (v : Q) (c : client) : client :=
  mkClient (api_base_url c) (client_id c) (session_id c) (max_concurrent c)
    (current_load c) (running c) (total_requests c) (successful_requests c)
    v (base_poll_interval c) (current_poll_interval c).

Definition set_current_poll_interval (v : Q) (c : client) : client :=
  mkClient (api_base_url c) (client_id c) (session_id c) (max_concurrent c)
    (current_load c) (running c) (total_requests c) (successful_requests c)
    (total_response_time c) (base_poll_interval c) v.

(** [str.rstrip('/')] *)
Fixpoint rstrip_slash (s : string) : string :=
  match s with
  | EmptyString => EmptyString
  | String a rest =>
      match rstrip_slash rest with
      | EmptyString => if Ascii.eqb a "/"%char then EmptyString
                       else String a EmptyString
      | kept => String a kept
      end
  end.

(** [BrowserClient.__init__]; [cid] is the identifier the constructor
    settles on (the given one, or the generated default). *)
Definition init (url cid : string) (maxc : Z) : client :=
  {| api_base_url := rstrip_slash url;
     client_id := cid;
     session_id := JNull;
     max_concurrent := maxc;
     current_load := 0;
     running := false;
     total_requests := 0;
     successful_requests := 0;
     total_response_time := 0;
     base_poll_interval := 5;
     current_poll_interval := 5 |}.

(** ** The methods without effects *)

(** [update_poll_interval] *)
Definition update_poll_interval (c : client) : client :=
  if (current_load c >=? max_concurrent c)%Z then
    set_current_poll_interval (Qmin (current_poll_interval c * (3 # 2)) 30) c
  else if (current_load c =? 0)%Z then
    set_current_poll_interval (Qmax (current_poll_interval c * (4 # 5)) 1) c
  else
    set_current_poll_interval (base_poll_interval c) c.

(** [get_average_response_time] *)
Definition get_average_response_time (c : client) : Q :=
  if (successful_requests c =? 0)%Z then 0
  else total_response_time c / inject_Z (successful_requests c).

(** [get_success_rate] *)
Definition get_success_rate (c : client) : Q :=
  if (total_requests c =? 0)%Z then 100
  else (inject_Z (successful_requests c) / inject_Z (total_requests c)) * 100.

(** [stop], as far as the worker's fields go. *)
Definition stop (c : client) : client := set_running false c.

(** ** The outside world *)

(** What one HTTP POST comes back with: the call raises, or a response
    arrives with its status, its text and what [response.json()] yields
    ([None] when decoding raises). *)
Inductive post_outcome : Type :=
| NetRaise (e : exn)
| NetReply (status : Z) (text : string) (body : option json).

(** The environment of a run.  [http n] answers the [n]-th POST the worker
    makes (counted from 0), [clock n] is what the [n]-th call of
    [time.time()] returns, [str_exn] is Python's [str] on an exception. *)
Record env : Type := mkEnv {
  http : nat -> post_outcome;
  clock : nat -> Q;
  str_exn : exn -> string;
  platform_system : string;
  platform_node : string;
  python_version : string
}.

(** ** Effects *)

Inductive level : Type := INFO | WARNING | ERROR.

(** The log lines of the module, by the statement that writes them. *)
Inductive logmsg : Type :=
| StartingClient (cid : string)
| RegisteredSuccessfully (sid : json)
| FailedToRegister (e : exn)
| StartingPollingLoop
| ErrorInPollingLoop (e : exn)
| NoSessionSkippingPoll
| PollFailed (status : Z)
| PollingError (e : exn)
| ProcessingRequest (request_id : json)
| FailedToProcessRequest (request_id : json) (e : exn)
| SimulatingProcessing (model : json)
| NoSessionCannotSend
| FailedToSendResponse (status : Z)
| ErrorSendingResponse (e : exn).

Inductive action : Type :=
| Log (lvl : level) (msg : logmsg)
| Post (url : string) (session_header : option json) (payload : json)
| Sleep (seconds : Q).

(** An effect together with the worker's fields when it happens. *)
Definition event : Type := (action * client)%type.

Definition acts (tr : list event) : list action := map fst tr.

(** ** The coroutine monad *)

Inductive res (A : Type) : Type :=
| Ok (a : A)
| Raise (e : exn).
Arguments Ok {A} a.
Arguments Raise {A} e.

(** The worker, and how many POSTs and clock reads the run has made. *)
Record machine : Type := mkMachine {
  self : client;
  posts : nat;
  ticks : nat
}.

Definition boot (c : client) : machine :=
  {| self := c; posts := 0; ticks := 0 |}.

Record run (A : Type) : Type := mkRun {
  result : res A;
  final : machine;
  trace : list event
}.
Arguments mkRun {A} _ _ _.
Arguments result {A} _.
Arguments final {A} _.
Arguments trace {A} _.

Definition M (A : Type) : Type := machine -> run A.

Definition ret {A} (a : A) : M A := fun m => mkRun (Ok a) m [].

Definition raise {A} (e : exn) : M A := fun m => mkRun (Raise e) m [].

Definition bind {A B} (p : M A) (k : A -> M B) : M B :=
  fun m =>
    let r := p m in
    match result r with
    | Ok a => let r' := k a (final r) in
              mkRun (result r') (final r') (trace r ++ trace r')
    | Raise e => mkRun (Raise e) (final r) (trace r)
    end.

Notation "x <- p ;; k" := (bind p (fun x => k))
  (at level 61, p at next level, right associativity).
Notation "p ;; k" := (bind p (fun _ => k))
  (at level 61, right associativity).

(** [try: p except Exception as e: h e] *)
Definition try_except {A} (p : M A) (h : exn -> M A) : M A :=
  fun m =>
    let r := p m in
    match result r with
    | Ok a => r
    | Raise e =>
        if is_Exception e then
          let r' := h e (final r) in
          mkRun (result r') (final r') (trace r ++ trace r')
        else r
    end.

(** [try: p finally: f]: [f] runs however [p] ends; the outcome of [p]
    stands unless [f] raises. *)
Definition try_finally {A} (p : M A) (f : M unit) : M A :=
  fun m =>
    let r := p m in
    let r' := f (final r) in
    match result r' with
    | Ok _ => mkRun (result r) (final r') (trace r ++ trace r')
    | Raise e => mkRun (Raise e) (final r') (trace r ++ trace r')
    end.

Definition get_self : M client := fun m => mkRun (Ok (self m)) m [].

Definition modify_self (f : client -> client) : M unit :=
  fun m => mkRun (Ok tt) (mkMachine (f (self m)) (posts m) (ticks m)) [].

Definition emit (a : action) : M unit :=
  fun m => mkRun (Ok tt) m [(a, self m)].

Definition log (lvl : level) (msg : logmsg) : M unit := emit (Log lvl msg).

(** [await asyncio.sleep(seconds)] *)
Definition sleep (seconds : Q) : M unit := emit (Sleep seconds).

(** [for i, x in enumerate(xs): body i x], counting from [i]. *)
Fixpoint for_enumerate {B} (i : nat) (xs : list B) (body : nat -> B -> M unit)
  : M unit :=
  match xs with
  | [] => ret tt
  | x :: rest => body i x ;; for_enumerate (S i) rest body
  end.

(** [d[k]]: a [KeyError] on a missing key, a [TypeError] when [d] is not a
    dict. *)
Definition subscript (d : json) (k : string) : M json :=
  match d with
  | JObj fields =>
      match assoc k fields with
      | Some v => ret v
      | None => raise (KeyError k)
      end
  | _ => raise TypeError
  end.

(** [d.get(k, default)]: an [AttributeError] when [d] has no [get]. *)
Definition get_or (d : json) (k : string) (default : json) : M json :=
  match d with
  | JObj fields =>
      match assoc k fields with
      | Some v => ret v
      | None => ret default
      end
  | _ => raise AttributeError
  end.

(** [min(v, 30)] on a parsed value. *)
Definition min_30 (v : json) : M Q :=
  match as_number v with
  | Some q => ret (Qmin q 30)
  | None => raise TypeError
  end.

(** ** The coroutines of [BrowserClient] *)

Record response : Type := mkResponse {
  status : Z;
  text : string;
  json_body : option json
}.

Section Worker.

Variable E : env.

(** [time.time()] *)
Definition time_time : M Q :=
  fun m => mkRun (Ok (clock E (ticks m)))
                 (mkMachine (self m) (posts m) (S (ticks m))) [].

(** [async with self.session.post(url, json=payload, headers=...)] *)
Definition session_post (url : string) (session_header : option json)
    (payload : json) : M response :=
  fun m =>
    let m' := mkMachine (self m) (S (posts m)) (ticks m) in
    let ev := (Post url session_header payload, self m) in
    match http E (posts m) with
    | NetRaise e => mkRun (Raise e) m' [ev]
    | NetReply st txt body => mkRun (Ok (mkResponse st txt body)) m' [ev]
    end.

(** [await response.json()] *)
Definition response_json (r : response) : M json :=
  match json_body r with
  | Some data => ret data
  | None => raise JSONDecodeError
  end.

(** [detect_location] *)
Definition detect_location : string :=
  platform_system E ++ "_" ++ platform_node E.

Definition register_url (c : client) : string :=
  api_base_url c ++ "/api/browser/register.php".
Definition poll_url (c : client) : string :=
  api_base_url c ++ "/api/browser/poll.php".
Definition response_url (c : client) : string :=
  api_base_url c ++ "/api/browser/response.php".

(** [register] *)
Definition register : M unit :=
  c <- get_self ;;
  let registration_data :=
    JObj [ ("client_identifier", JStr (client_id c));
           ("capabilities",
            JObj [ ("supported_models", JList [JStr "text"; JStr "image"]);
                   ("max_concurrent_requests", of_Z (max_concurrent c));
                   ("streaming_support", JBool true);
                   ("platform", JStr (platform_system E));
                   ("python_version", JStr (python_version E)) ]);
           ("max_concurrent_requests", of_Z (max_concurrent c));
           ("geographic_location", JStr detect_location) ] in
  try_except
    (resp <- session_post (register_url c) None registration_data ;;
     if (status resp =? 200)%Z then
       data <- response_json resp ;;
       sid <- subscript data "session_id" ;;
       modify_self (set_session_id sid) ;;
       log INFO (RegisteredSuccessfully sid)
     else
       raise (RegistrationFailed (status resp) (text resp)))
    (fun e => log ERROR (FailedToRegister e) ;; raise e).

(** [send_response] *)
Definition send_response (response_data : json) : M unit :=
  c <- get_self ;;
  if negb (truthy (session_id c)) then
    log WARNING NoSessionCannotSend
  else
    try_except
      (resp <- session_post (response_url c) (Some (session_id c))
                            response_data ;;
       if negb (status resp =? 200)%Z then
         log WARNING (FailedToSendResponse (status resp))
       else ret tt)
      (fun e => log ERROR (ErrorSendingResponse e)).

Definition chunk_data (request_id : json) (content : string) (sequence : nat)
  : json :=
  JObj [ ("request_id", request_id); ("type", JStr "chunk");
         ("content", JStr content); ("sequence", of_nat sequence) ].

Definition completion_data (request_id : json) (full_response : string)
    (response_time_ms : Q) : json :=
  JObj [ ("request_id", request_id); ("type", JStr "complete");
         ("full_response", JStr full_response);
         ("response_time_ms", JNum response_time_ms) ].

Definition error_data (request_id : json) (error_message : string) : json :=
  JObj [ ("request_id", request_id); ("type", JStr "error");
         ("error_message", JStr error_message);
         ("error_type", JStr "processing_error") ].

(** [send_chunk] *)
Definition send_chunk (request_id : json) (content : string) (sequence : nat)
  : M unit :=
  send_response (chunk_data request_id content sequence).

(** [send_completion] *)
Definition send_completion (request_id : json) (full_response : string)
    (response_time_ms : Q) : M unit :=
  send_response (completion_data request_id full_response response_time_ms).

(** [send_error] *)
Definition send_error (request_id : json) (error_message : string) : M unit :=
  send_response (error_data request_id error_message).

(** The chunks of the simulated streamed answer. *)
Definition chunks : list string :=
  ["Hello"; " there"; "! This"; " is"; " a"; " simulated"; " response"; "."].

(** The streaming loop of [simulate_browser_processing], for any list of
    chunks. *)
Definition stream_chunks (request_info : json) (cs : list string) : M unit :=
  for_enumerate 0 cs (fun i chunk =>
    request_id <- subscript request_info "request_id" ;;
    send_chunk request_id chunk i ;;
    sleep (1 # 10)).

(** [simulate_browser_processing] *)
Definition simulate_browser_processing (request_info : json) : M unit :=
  model <- subscript request_info "model" ;;
  messages <- subscript request_info "messages" ;;
  is_streaming <- get_or request_info "stream" (JBool true) ;;
  log INFO (SimulatingProcessing model) ;;
  if truthy is_streaming then stream_chunks request_info chunks
  else sleep 1.

(** [process_request] *)
Definition process_request (request_info : json) : M unit :=
  request_id <- subscript request_info "request_id" ;;
  log INFO (ProcessingRequest request_id) ;;
  start_time <- time_time ;;
  modify_self (fun c => set_current_load (current_load c + 1) c) ;;
  modify_self (fun c => set_total_requests (total_requests c + 1) c) ;;
  try_finally
    (try_except
       (simulate_browser_processing request_info ;;
        modify_self (fun c =>
          set_successful_requests (successful_requests c + 1) c) ;;
        now <- time_time ;;
        let response_time := (now - start_time) * 1000 in
        modify_self (fun c =>
          set_total_response_time (total_response_time c + response_time) c) ;;
        send_completion request_id "Simulated response" response_time)
       (fun e =>
          log ERROR (FailedToProcessRequest request_id e) ;;
          send_error request_id (str_exn E e)))
    (modify_self (fun c => set_current_load (current_load c - 1) c)).

(** The [poll_data] of [poll_for_requests]: the metrics of the worker [c]
    and the reading [now] of the clock. *)
Definition poll_data (c : client) (now : Q) : json :=
  JObj [ ("current_load", of_Z (current_load c));
         ("average_response_time", JNum (get_average_response_time c));
         ("success_rate", JNum (get_success_rate c));
         ("last_poll", JNum now) ].

(** [poll_for_requests] *)
Definition poll_for_requests : M unit :=
  c <- get_self ;;
  if negb (truthy (session_id c)) then
    log WARNING NoSessionSkippingPoll
  else
    now <- time_time ;;
    try_except
      (resp <- session_post (poll_url c) (Some (session_id c))
                            (poll_data c now) ;;
       if (status resp =? 200)%Z then
         data <- response_json resp ;;
         has_request <- get_or data "has_request" JNull ;;
         if truthy has_request then
           request_info <- subscript data "request" ;;
           process_request request_info
         else
           c' <- get_self ;;
           recommended_interval <-
             get_or data "poll_interval" (JNum (base_poll_interval c')) ;;
           capped <- min_30 recommended_interval ;;
           modify_self (set_current_poll_interval capped)
       else
         log WARNING (PollFailed (status resp)))
      (fun e => log ERROR (PollingError e)).

(** One turn of the [while self.running] loop of [polling_loop]. *)
Definition polling_iteration : M unit :=
  try_except
    (modify_self update_poll_interval ;;
     poll_for_requests ;;
     c <- get_self ;;
     sleep (current_poll_interval c))
    (fun e => log ERROR (ErrorInPollingLoop e) ;; sleep 5).

(** The [while] loop, observed for at most [fuel] turns. *)
Fixpoint polling_turns (fuel : nat) : M unit :=
  match fuel with
  | O => ret tt
  | S fuel' =>
      c <- get_self ;;
      if running c then polling_iteration ;; polling_turns fuel'
      else ret tt
  end.

(** [polling_loop] *)
Definition polling_loop (fuel : nat) : M unit :=
  log INFO StartingPollingLoop ;;
  polling_turns fuel.

(** [start] *)
Definition start (fuel : nat) : M unit :=
  c <- get_self ;;
  log INFO (StartingClient (client_id c)) ;;
  register ;;
  modify_self (set_running true) ;;
  polling_loop fuel.

End Worker.

(** ** Reading a trace *)

(** The payloads of the POSTs of a trace, in order. *)
Fixpoint reports (tr : list event) : list json :=
  match tr with
  | [] => []
  | (Post _ _ payload, _) :: rest => payload :: reports rest
  | _ :: rest => reports rest
  end.

(** The [type] field of a report. *)
Definition report_type (payload : json) : option json :=
  match payload with
  | JObj fields => assoc "type" fields
  | _ => None
  end.

Definition has_type (t : string) (payload : json) : bool :=
  match report_type payload with
  | Some (JStr t') => String.eqb t t'
  | _ => false
  end.

(** The lengths of the pauses of a trace, in order. *)
Fixpoint sleeps (tr : list event) : list Q :=
  match tr with
  | [] => []
  | (Sleep q, _) :: rest => q :: sleeps rest
  | _ :: rest => sleeps rest
  end.

(** The URL and the [type] field of each POST of a trace, in order. *)
Fixpoint posted (tr : list event) : list (string * option json) :=
  match tr with
  | [] => []
  | (Post url _ payload, _) :: rest => (url, report_type payload) :: posted rest
  | _ :: rest => posted rest
  end.

(** A POST to the poll endpoint of the worker that makes it. *)
Definition is_poll (ev : event) : Prop :=
  exists hdr payload, fst ev = Post (poll_url (snd ev)) hdr payload.

(** The dispatcher never recommends a poll interval below one second:
    no answer with status 200 carries a smaller number as [poll_interval]. *)
Definition recommends_at_least_1s (E : env) : Prop :=
  forall n txt fields v q,
    http E n = NetReply 200 txt (Some (JObj fields)) ->
    assoc "poll_interval" fields = Some v ->
    as_number v = Some q ->
    1 <= q.

(** No call of the run is interrupted by a cancellation. *)
Definition never_cancelled (E : env) : Prop :=
  forall n e, http E n = NetRaise e -> is_Exception e = true.

(** ** A program logic for coroutines *)

(** [hoare P p Q J]: run from a worker state satisfying [P], the coroutine
    [p] ends (normally or by an exception) in a worker state and with a
    result related by [Q], and every effect on the way satisfies [J]. *)
Definition hoare {A} (P : client -> Prop) (p : M A)
    (Q : res A -> client -> Prop) (J : event -> Prop) : Prop :=
  forall m, P (self m) ->
    Q (result (p m)) (self (final (p m))) /\ Forall J (trace (p m)).

(** [P] is an invariant of [p]. *)
Definition keeps {A} (P : client -> Prop) (J : event -> Prop) (p : M A)
  : Prop :=
  hoare P p (fun _ c => P c) J.

(** [p] does not touch the worker's fields and sends no poll. *)
Definition quiet {A} (p : M A) : Prop :=
  forall m,
    self (final (p m)) = self m /\
    Forall (fun ev => snd ev = self m /\ ~ is_poll ev) (trace (p m)).

(** The effects of a coroutine that runs in the fixed worker state [c0]
    and sends no poll. *)
Definition at_rest (c0 : client) (ev : event) : Prop :=
  snd ev = c0 /\ ~ is_poll ev.

(** In a [P] state every effect that is not a poll satisfies [J]. *)
Definition covers (P : client -> Prop) (J : event -> Prop) : Prop :=
  forall a c, P c -> ~ is_poll (a, c) -> J (a, c).

(** ** The adaptive interval as the design document words it *)

(** "If [currentLoad >= maxConcurrent]: [interval = min(interval * 1.5, 30)];
    else if [currentLoad == 0]: [interval = max(interval * 0.8, 1)];
    else [interval = baseInterval]." *)
Definition spec_next_interval (interval base : Q) (load maxc : Z) : Q :=
  if Z_le_dec maxc load then Qmin (interval * 1.5) 30
  else if Z.eq_dec load 0 then Qmax (interval * 0.8) 1
  else base.

(** "[successRate] is 100 when [total == 0]; otherwise equals
    [100 * successful / total]." *)
Definition spec_success_rate (successful total : Z) : Q :=
  if Z.eq_dec total 0 then 100
  else 100 * inject_Z successful / inject_Z total.

(** ** Invariants of a run *)

(** The poll interval is capped, and floored when the dispatcher's
    recommendations are. *)
Definition interval_bounded (E : env) (c : client) : Prop :=
  current_poll_interval c <= 30 /\
  (recommends_at_least_1s E -> 1 <= current_poll_interval c).

(** The worker's state between two steps of a coroutine that runs with [k]
    requests in flight, in a worker configured for [maxc]. *)
Definition steady (E : env) (maxc k : Z) (c : client) : Prop :=
  current_load c = k /\
  (max_concurrent c = maxc /\ base_poll_interval c = 5) /\
  interval_bounded E c.

(** What holds of every effect of a coroutine entered with load [L]: the
    load is [L] or [L + 1], the interval is bounded, and a poll is made
    at load [L] only. *)
Definition observed (E : env) (maxc L : Z) (ev : event) : Prop :=
  (L <= current_load (snd ev) <= L + 1)%Z /\
  max_concurrent (snd ev) = maxc /\
  interval_bounded E (snd ev) /\
  (is_poll ev -> current_load (snd ev) = L).

(** The machine when [process_request] enters its [try] block: the clock
    has been read once, the load and the total have been incremented. *)
Definition begun (m : machine) : machine :=
  mkMachine
    (set_total_requests (total_requests (self m) + 1)
       (set_current_load (current_load (self m) + 1) (self m)))
    (posts m) (S (ticks m)).

(** ** Big-step reading of a run *)

(** [yields p m r m' sent]: from the machine [m] the coroutine [p] ends
    with the result [r] in the machine [m'], having POSTed the payloads
    [sent], in this order. *)
Definition yields {A} (p : M A) (m : machine) (r : res A) (m' : machine)
    (sent : list json) : Prop :=
  result (p m) = r /\ final (p m) = m' /\ reports (trace (p m)) = sent.

(** [runs p m r m' tr]: the same, with the whole trace [tr]. *)
Definition runs {A} (p : M A) (m : machine) (r : res A) (m' : machine)
    (tr : list event) : Prop :=
  p m = mkRun r m' tr.

(** Every payload POSTed by the effect [ev] satisfies [T]. *)
Definition only_reports (T : json -> Prop) (ev : event) : Prop :=
  forall url hdr payload, fst ev = Post url hdr payload -> T payload.

(** The chunk reports of the chunks [cs] of the request [request_id],
    numbered from [i]. *)
Fixpoint chunk_reports (request_id : json) (i : nat) (cs : list string)
  : list json :=
  match cs with
  | [] => []
  | chunk :: rest =>
      chunk_data request_id chunk i :: chunk_reports request_id (S i) rest
  end.

(** The [sequence] numbers of a list of reports. *)
Definition sequence_numbers (sent : list json) : list (option json) :=
  map (fun payload => match payload with
                      | JObj fields => assoc "sequence" fields
                      | _ => None
                      end) sent.

(** ** Sample worlds *)

Module Sample.

(** [str] on the exceptions of the samples: a [KeyError] prints its key
    quoted. *)
Definition py_str (e : exn) : string :=
  match e with
  | KeyError k => "'" ++ k ++ "'"
  | TransportError what => what
  | _ => "error"
  end.

Definition ok (data : json) : post_outcome := NetReply 200 "ok" (Some data).

Definition registered : post_outcome :=
  ok (JObj [("session_id", JStr "sess-1")]).

Definition idle : post_outcome := ok (JObj [("has_request", JBool false)]).

Definition idle_recommending (seconds : Q) : post_outcome :=
  ok (JObj [("has_request", JBool false); ("poll_interval", JNum seconds)]).

Definition assigned (request : json) : post_outcome :=
  ok (JObj [("has_request", JBool true); ("request", request)]).

(** A streaming request as the wire contract has it. *)
Definition streaming_request : json :=
  JObj [ ("request_id", JStr "req-1"); ("model", JStr "gpt");
         ("messages", JList []); ("stream", JBool true) ].

(** A world that answers the worker's POSTs with [replies], in order, and
    with an idle poll answer afterwards; the clock advances one second per
    reading. *)
Definition world (replies : list post_outcome) : env :=
  {| http := fun n => nth n replies idle;
     clock := fun n => inject_Z (Z.of_nat n);
     str_exn := py_str;
     platform_system := "Linux";
     platform_node := "worker-1";
     python_version := "3.11" |}.

(** A worker made by [BrowserClient(url, cid, maxc)], run by [start] for
    [fuel] turns of the loop. *)
Definition session (replies : list post_outcome) (maxc : Z) (fuel : nat)
  : run unit :=
  start (world replies) fuel (boot (init "http://dispatcher/" "worker-1" maxc)).

(** A registered worker about to enter its loop. *)
Definition registered_worker : machine :=
  mkMachine
    (set_running true
       (set_session_id (JStr "sess-1") (init "http://dispatcher/" "worker-1" 5)))
    1 0.

End Sample.

(** ** Further readings of the code *)

(** [n] slashes. *)
Fixpoint slashes (n : nat) : string :=
  match n with
  | O => EmptyString
  | S n' => String "/"%char (slashes n')
  end.

(** What [register] makes of the answer to its POST: the session id it
    stores, or the exception it raises. *)
Definition registration_of (reply : post_outcome) : res json :=
  match reply with
  | NetRaise e => Raise e
  | NetReply st txt body =>
      if (st =? 200)%Z then
        match body with
        | None => Raise JSONDecodeError
        | Some (JObj fields) =>
            match assoc "session_id" fields with
            | Some sid => Ok sid
            | None => Raise (KeyError "session_id")
            end
        | Some _ => Raise TypeError
        end
      else Raise (RegistrationFailed st txt)
  end.

(** The [registration_data] of [register]. *)
Definition registration_data (E : env) (c : client) : json :=
  JObj [ ("client_identifier", JStr (client_id c));
         ("capabilities",
          JObj [ ("supported_models", JList [JStr "text"; JStr "image"]);
                 ("max_concurrent_requests", of_Z (max_concurrent c));
                 ("streaming_support", JBool true);
                 ("platform", JStr (platform_system E));
                 ("python_version", JStr (python_version E)) ]);
         ("max_concurrent_requests", of_Z (max_concurrent c));
         ("geographic_location", JStr (detect_location E)) ].

(** The counters of the metrics are sound: no more successes than
    attempts, and no negative count. *)
Definition counters_sound (c : client) : Prop :=
  (0 <= successful_requests c <= total_requests c)%Z.

(** The fields that [__init__] and [register] set and nothing else
    writes. *)
Definition same_identity (c0 c : client) : Prop :=
  api_base_url c = api_base_url c0 /\
  client_id c = client_id c0 /\
  session_id c = session_id c0 /\
  max_concurrent c = max_concurrent c0 /\
  base_poll_interval c = base_poll_interval c0.

(** What [poll_for_requests] does with the response to its POST (the body
    of its [async with] block). *)
Definition poll_answered (E : env) (resp : response) : M unit :=
  if (status resp =? 200)%Z then
    data <- response_json resp ;;
    has_request <- get_or data "has_request" JNull ;;
    if truthy has_request then
      request_info <- subscript data "request" ;;
      process_request E request_info
    else
      c' <- get_self ;;
      recommended_interval <-
        get_or data "poll_interval" (JNum (base_poll_interval c')) ;;
      capped <- min_30 recommended_interval ;;
      modify_self (set_current_poll_interval capped)
  else
    log WARNING (PollFailed (status resp)).

(** The log line of a poll answer that carries neither an assignment nor
    a usable idle outcome: a status other than 200, a body that is not
    JSON or not an object, a [poll_interval] that is not a number. *)
Definition complaint (st : Z) (body : option json) : option (level * logmsg) :=
  if (st =? 200)%Z then
    match body with
    | None => Some (ERROR, PollingError JSONDecodeError)
    | Some (JObj fields) =>
        if truthy (match assoc "has_request" fields with
                   | Some h => h
                   | None => JNull
                   end)
        then None
        else match assoc "poll_interval" fields with
             | Some v => match as_number v with
                         | Some _ => None
                         | None => Some (ERROR, PollingError TypeError)
                         end
             | None => None
             end
    | Some _ => Some (ERROR, PollingError AttributeError)
    end
  else Some (WARNING, PollFailed st).

(** The exception raised on an assignment that cannot be processed: no
    [request], a [request] that is not an object, no [request_id]. *)
Definition request_fault (fields : list (string * json)) : option exn :=
  match assoc "request" fields with
  | None => Some (KeyError "request")
  | Some (JObj request_fields) =>
      match assoc "request_id" request_fields with
      | None => Some (KeyError "request_id")
      | Some _ => None
      end
  | Some _ => Some TypeError
  end.

(** How a report call ends, by the answer to its POST: only a
    cancellation comes out of it. *)
Definition report_outcome (reply : post_outcome) : res unit :=
  match reply with
  | NetRaise e => if is_Exception e then Ok tt else Raise e
  | NetReply _ _ _ => Ok tt
  end.

(** The log line of a report that was not acknowledged. *)
Definition report_log (reply : post_outcome) : list (level * logmsg) :=
  match reply with
  | NetRaise e =>
      if is_Exception e then [(ERROR, ErrorSendingResponse e)] else []
  | NetReply st _ _ =>
      if (st =? 200)%Z then [] else [(WARNING, FailedToSendResponse st)]
  end.

(** [p] lets no [Exception] out: it returns, or is cancelled. *)
Definition tame {A} (p : M A) : Prop :=
  forall m e, result (p m) = Raise e -> is_Exception e = false.

(** [p] does not read the clock. *)
Definition clockless {A} (p : M A) : Prop :=
  forall m, ticks (final (p m)) = ticks m.

(** The key of the wire contract that the simulated executor misses in a
    request, if any. *)
Definition missing_key (fields : list (string * json)) : option string :=
  match assoc "model" fields with
  | None => Some "model"
  | Some _ =>
      match assoc "messages" fields with
      | None => Some "messages"
      | Some _ => None
      end
  end.

(** The [try ... except] block of [process_request], for the request id
    and the start time read before it. *)
Definition attempt (E : env) (request_info request_id : json)
    (start_time : Q) : M unit :=
  try_except
    (simulate_browser_processing E request_info ;;
     modify_self (fun c =>
       set_successful_requests (successful_requests c + 1) c) ;;
     now <- time_time E ;;
     let response_time := (now - start_time) * 1000 in
     modify_self (fun c =>
       set_total_response_time (total_response_time c + response_time) c) ;;
     send_completion E request_id "Simulated response" response_time)
    (fun e =>
       log ERROR (FailedToProcessRequest request_id e) ;;
       send_error E request_id (str_exn E e)).

(** The worker after a request that succeeded with the latency
    [response_time], and after one that did not. *)
Definition credited (response_time : Q) (c : client) : client :=
  set_total_response_time (total_response_time c + response_time)
    (set_successful_requests (successful_requests c + 1) c).

(** The latency [process_request] measures when entered in the machine
    [m]: the time between its two readings of the clock, in
    milliseconds. *)
Definition measured (E : env) (m : machine) : Q :=
  (clock E (S (ticks m)) - clock E (ticks m)) * 1000.

(** A field of a payload. *)
Definition field (k : string) (payload : json) : option json :=
  match payload with
  | JObj fields => assoc k fields
  | _ => None
  end.

(** In a [P] state the log lines, the pauses and the reports are all
    admissible effects. *)
Definition admits (P : client -> Prop) (J : event -> Prop) : Prop :=
  (forall lvl msg c, P c -> J (Log lvl msg, c)) /\
  (forall q c, P c -> J (Sleep q, c)) /\
  (forall d c, P c ->
     J (Post (response_url c) (Some (session_id c)) d, c)).

(** What is observed of the metrics at an effect: the counters are sound,
    the success rate is a percentage, and a poll reports that rate. *)
Definition metrics_observed (ev : event) : Prop :=
  counters_sound (snd ev) /\
  0 <= get_success_rate (snd ev) <= 100 /\
  (forall hdr payload,
     fst ev = Post (poll_url (snd ev)) hdr payload ->
     field "success_rate" payload = Some (JNum (get_success_rate (snd ev)))).

(** What is observed of the identity of the worker [c0] at an effect: its
    identity is unchanged, and a POST goes to the poll or to the response
    endpoint of [c0], under the session header of [c0]. *)
Definition identity_observed (c0 : client) (ev : event) : Prop :=
  same_identity c0 (snd ev) /\
  (forall url hdr payload,
     fst ev = Post url hdr payload ->
     hdr = Some (session_id c0) /\
     (url = poll_url c0 \/ url = response_url c0)).

(** ** More sample worlds *)

Module Scenario.

(** The dispatcher refuses the registration. *)
Definition refused : post_outcome := NetReply 503 "busy" None.

(** The dispatcher registers the worker under an empty session id. *)
Definition registered_without_id : post_outcome :=
  Sample.ok (JObj [("session_id", JStr EmptyString)]).

(** A request that is not to be streamed. *)
Definition plain_request : json :=
  JObj [ ("request_id", JStr "req-3"); ("model", JStr "gpt");
         ("messages", JList []); ("stream", JBool false) ].

(** A request without its [request_id]. *)
Definition anonymous_request : json :=
  JObj [ ("model", JStr "gpt"); ("messages", JList []) ].

(** A worker that registered under an empty session id. *)
Definition unregistered_worker : machine :=
  mkMachine
    (set_running true
       (set_session_id (JStr EmptyString)
          (init "http://dispatcher/" "worker-1" 5)))
    1 0.

End Scenario.

(** * Properties *)

(** ** The pure methods *)

Lemma inject_Z_nonzero (z : Z) : z <> 0%Z -> ~ inject_Z z == 0.
Proof.
  intros Hz H. apply Hz. unfold Qeq in H. simpl in H. lia.
Qed.

Lemma Qmin_eq_compat (a b c : Q) : a == b -> Qmin a c == Qmin b c.
Proof.
  intros H.
  destruct (Q.min_spec a c) as [[H1 ->] | [H1 ->]];
    destruct (Q.min_spec b c) as [[H2 ->] | [H2 ->]]; lra.
Qed.

Lemma Qmax_eq_compat (a b c : Q) : a == b -> Qmax a c == Qmax b c.
Proof.
  intros H.
  destruct (Q.max_spec a c) as [[H1 ->] | [H1 ->]];
    destruct (Q.max_spec b c) as [[H2 ->] | [H2 ->]]; lra.
Qed.



(** ** Rules of the program logic *)

Section Rules.

Context {A : Type}.
Variables (P : client -> Prop) (J : event -> Prop).

(** It is enough to reason from one worker state at a time. *)
Lemma hoare_pointwise (p : M A) (Q : res A -> client -> Prop) :
  (forall c0, P c0 -> hoare (fun c => c = c0) p Q J) ->
  hoare P p Q J.
Proof.
  intros H m Hm. exact (H (self m) Hm m eq_refl).
Qed.

Lemma hoare_ret (a : A) (Q : res A -> client -> Prop) :
  (forall c, P c -> Q (Ok a) c) -> hoare P (ret a) Q J.
Proof.
  intros H m Hm. simpl. split; [apply H; assumption | constructor].
Qed.

Lemma hoare_raise (e : exn) (Q : res A -> client -> Prop) :
  (forall c, P c -> Q (Raise e) c) -> hoare P (raise e) Q J.
Proof.
  intros H m Hm. simpl. split; [apply H; assumption | constructor].
Qed.

Lemma hoare_bind {B} (p : M B) (k : B -> M A)
    (Qm : res B -> client -> Prop) (Q : res A -> client -> Prop) :
  hoare P p Qm J ->
  (forall b, hoare (Qm (Ok b)) (k b) Q J) ->
  (forall e c, Qm (Raise e) c -> Q (Raise e) c) ->
  hoare P (bind p k) Q J.
Proof.
  intros Hp Hk He m Hm. unfold bind.
  destruct (Hp m Hm) as [HQ HJ].
  destruct (result (p m)) as [b | e]; simpl.
  - destruct (Hk b (final (p m)) HQ) as [HQ' HJ'].
    split; [exact HQ' | apply Forall_app; split; assumption].
  - split; [apply He; exact HQ | exact HJ].
Qed.

Lemma keeps_bind {B} (p : M B) (k : B -> M A) :
  keeps P J p -> (forall b, keeps P J (k b)) -> keeps P J (bind p k).
Proof.
  intros Hp Hk. eapply hoare_bind; [exact Hp | exact Hk | auto].
Qed.

Lemma hoare_ret_bind {B} (b : B) (k : B -> M A)
    (Q : res A -> client -> Prop) :
  hoare P (k b) Q J -> hoare P (bind (ret b) k) Q J.
Proof.
  intros H m Hm. unfold bind. simpl. exact (H m Hm).
Qed.

Lemma hoare_raise_bind {B} (e : exn) (k : B -> M A)
    (Q : res A -> client -> Prop) :
  (forall c, P c -> Q (Raise e) c) -> hoare P (bind (raise e) k) Q J.
Proof.
  intros H m Hm. unfold bind. simpl. split; [apply H; assumption | constructor].
Qed.

Lemma hoare_get_bind (k : client -> M A) (Q : res A -> client -> Prop) :
  (forall c0, P c0 -> hoare (fun c => c = c0) (k c0) Q J) ->
  hoare P (bind get_self k) Q J.
Proof.
  intros H m Hm. unfold bind. simpl. exact (H (self m) Hm m eq_refl).
Qed.

Lemma hoare_modify_bind (f : client -> client) (P' : client -> Prop)
    (k : M A) (Q : res A -> client -> Prop) :
  (forall c, P c -> P' (f c)) ->
  hoare P' k Q J ->
  hoare P (bind (modify_self f) (fun _ => k)) Q J.
Proof.
  intros Hf Hk m Hm. unfold bind. simpl.
  exact (Hk (mkMachine (f (self m)) (posts m) (ticks m)) (Hf _ Hm)).
Qed.

Lemma hoare_time_bind (E : env) (k : Q -> M A)
    (Q' : res A -> client -> Prop) :
  (forall t, hoare P (k t) Q' J) ->
  hoare P (bind (time_time E) k) Q' J.
Proof.
  intros Hk m Hm. unfold bind. simpl.
  exact (Hk _ (mkMachine (self m) (posts m) (S (ticks m))) Hm).
Qed.

(** A POST hands its continuation a response that the world really gave. *)
Lemma hoare_post_bind (E : env) (url : string) (hdr : option json)
    (payload : json) (k : response -> M A) (Q : res A -> client -> Prop) :
  (forall c, P c -> J (Post url hdr payload, c)) ->
  (forall resp n,
      http E n = NetReply (status resp) (text resp) (json_body resp) ->
      hoare P (k resp) Q J) ->
  (forall e c, P c -> Q (Raise e) c) ->
  hoare P (bind (session_post E url hdr payload) k) Q J.
Proof.
  intros Ha Hk He m Hm. unfold bind, session_post.
  destruct (http E (posts m)) as [e | st txt body] eqn:Hn; simpl.
  - split; [apply He; exact Hm | constructor; [apply Ha; exact Hm | constructor]].
  - destruct (Hk (mkResponse st txt body) (posts m) Hn
                 (mkMachine (self m) (S (posts m)) (ticks m)) Hm) as [HQ HJ].
    split; [exact HQ | constructor; [apply Ha; exact Hm | exact HJ]].
Qed.

Lemma keeps_try_except (p : M A) (h : exn -> M A) :
  keeps P J p -> (forall e, keeps P J (h e)) -> keeps P J (try_except p h).
Proof.
  intros Hp Hh m Hm. unfold try_except.
  destruct (Hp m Hm) as [HQ HJ].
  destruct (result (p m)) as [a | e]; [split; assumption |].
  destruct (is_Exception e); [| split; assumption].
  destruct (Hh e (final (p m)) HQ) as [HQ' HJ']. simpl.
  split; [exact HQ' | apply Forall_app; split; assumption].
Qed.

Lemma hoare_try_finally (p : M A) (f : M unit) (Qm R : client -> Prop) :
  hoare P p (fun _ => Qm) J ->
  hoare Qm f (fun _ => R) J ->
  hoare P (try_finally p f) (fun _ => R) J.
Proof.
  intros Hp Hf m Hm. unfold try_finally.
  destruct (Hp m Hm) as [HQ HJ].
  destruct (Hf (final (p m)) HQ) as [HR HJ'].
  destruct (result (f (final (p m)))); simpl;
    (split; [exact HR | apply Forall_app; split; assumption]).
Qed.

Lemma keeps_ret (a : A) : keeps P J (ret a).
Proof. apply hoare_ret. auto. Qed.

Lemma keeps_raise (e : exn) : keeps P J (raise (A := A) e).
Proof. apply hoare_raise. auto. Qed.

End Rules.

Lemma keeps_emit (P : client -> Prop) (J : event -> Prop) (a : action) :
  (forall c, P c -> J (a, c)) -> keeps P J (emit a).
Proof.
  intros Ha m Hm. simpl. split; [exact Hm | constructor; [apply Ha; exact Hm | constructor]].
Qed.

Lemma keeps_for_enumerate {B} (P : client -> Prop) (J : event -> Prop)
    (body : nat -> B -> M unit) (xs : list B) :
  (forall i x, keeps P J (body i x)) ->
  forall i, keeps P J (for_enumerate i xs body).
Proof.
  intros Hb. induction xs as [| x rest IH]; intros i; simpl.
  - apply keeps_ret.
  - apply keeps_bind; [apply Hb | intros _; apply IH].
Qed.

Lemma keeps_subscript (P : client -> Prop) (J : event -> Prop)
    (d : json) (k : string) :
  keeps P J (subscript d k).
Proof.
  unfold subscript. destruct d; try apply keeps_raise.
  destruct (assoc k fields); [apply keeps_ret | apply keeps_raise].
Qed.

Lemma keeps_get_or (P : client -> Prop) (J : event -> Prop)
    (d : json) (k : string) (default : json) :
  keeps P J (get_or d k default).
Proof.
  unfold get_or. destruct d; try apply keeps_raise.
  destruct (assoc k fields); apply keeps_ret.
Qed.

(** ** Coroutines that leave the worker alone *)

Lemma append_cancel_l (s a b : string) : s ++ a = s ++ b -> a = b.
Proof.
  induction s as [| ch s IH]; simpl; intros H; [exact H |].
  injection H as H. exact (IH H).
Qed.

Lemma response_url_not_poll (c : client) : response_url c <> poll_url c.
Proof.
  unfold response_url, poll_url. intros H.
  apply append_cancel_l in H. discriminate H.
Qed.

Lemma register_url_not_poll (c : client) : register_url c <> poll_url c.
Proof.
  unfold register_url, poll_url. intros H.
  apply append_cancel_l in H. discriminate H.
Qed.

Lemma log_not_poll (lvl : level) (msg : logmsg) (c : client) :
  ~ is_poll (Log lvl msg, c).
Proof. intros (hdr & payload & H). discriminate H. Qed.

Lemma sleep_not_poll (q : Q) (c : client) : ~ is_poll (Sleep q, c).
Proof. intros (hdr & payload & H). discriminate H. Qed.

Lemma report_not_poll (hdr : option json) (payload : json) (c : client) :
  ~ is_poll (Post (response_url c) hdr payload, c).
Proof.
  intros (hdr' & payload' & H). simpl in H.
  injection H as H _ _. exact (response_url_not_poll c H).
Qed.

Lemma registration_not_poll (hdr : option json) (payload : json) (c : client) :
  ~ is_poll (Post (register_url c) hdr payload, c).
Proof.
  intros (hdr' & payload' & H). simpl in H.
  injection H as H _ _. exact (register_url_not_poll c H).
Qed.

Create HintDb effects.

#[local] Hint Resolve log_not_poll sleep_not_poll report_not_poll
  registration_not_poll : effects.

Lemma quiet_intro {A} (p : M A) :
  (forall c0, keeps (fun c => c = c0) (at_rest c0) p) -> quiet p.
Proof.
  intros H m. exact (H (self m) m eq_refl).
Qed.

Lemma quiet_elim {A} (p : M A) (c0 : client) :
  quiet p -> keeps (fun c => c = c0) (at_rest c0) p.
Proof.
  intros H m Hm. destruct (H m) as [H1 H2]. split; [congruence |].
  unfold at_rest. rewrite <- Hm. exact H2.
Qed.

Lemma keeps_quiet {A} (P : client -> Prop) (J : event -> Prop) (p : M A) :
  quiet p -> covers P J -> keeps P J p.
Proof.
  intros Hq Hc m Hm. destruct (Hq m) as [H1 H2].
  split; [rewrite H1; exact Hm |].
  eapply Forall_impl; [| exact H2].
  intros [a c] [Hs Hn]. simpl in Hs. subst c. apply Hc; assumption.
Qed.

Ltac at_rest_effect :=
  let c := fresh "c" in
  intros c ->; split; [reflexivity | auto with effects].

Lemma quiet_log (lvl : level) (msg : logmsg) : quiet (log lvl msg).
Proof.
  apply quiet_intro. intros c0. apply keeps_emit. at_rest_effect.
Qed.

Lemma quiet_sleep (q : Q) : quiet (sleep q).
Proof.
  apply quiet_intro. intros c0. apply keeps_emit. at_rest_effect.
Qed.

Lemma quiet_send_response (E : env) (response_data : json) :
  quiet (send_response E response_data).
Proof.
  apply quiet_intro. intros c0. unfold send_response.
  apply hoare_get_bind. intros c1 ->.
  destruct (negb (truthy (session_id c0))).
  - apply keeps_emit. at_rest_effect.
  - apply keeps_try_except.
    + apply hoare_post_bind; [at_rest_effect | | auto].
      intros resp n _.
      destruct (negb (status resp =? 200)%Z);
        [apply keeps_emit; at_rest_effect | apply keeps_ret].
    + intros e. apply keeps_emit. at_rest_effect.
Qed.

Lemma quiet_stream_chunks (E : env) (request_info : json) (cs : list string) :
  quiet (stream_chunks E request_info cs).
Proof.
  apply quiet_intro. intros c0. unfold stream_chunks.
  apply keeps_for_enumerate. intros i chunk.
  apply keeps_bind; [apply keeps_subscript |]. intros request_id.
  apply keeps_bind; [apply quiet_elim, quiet_send_response |]. intros _.
  apply quiet_elim, quiet_sleep.
Qed.

Lemma quiet_simulate_browser_processing (E : env) (request_info : json) :
  quiet (simulate_browser_processing E request_info).
Proof.
  apply quiet_intro. intros c0. unfold simulate_browser_processing.
  apply keeps_bind; [apply keeps_subscript |]. intros model.
  apply keeps_bind; [apply keeps_subscript |]. intros messages.
  apply keeps_bind; [apply keeps_get_or |]. intros is_streaming.
  apply keeps_bind; [apply quiet_elim, quiet_log |]. intros _.
  destruct (truthy is_streaming).
  - apply quiet_elim, quiet_stream_chunks.
  - apply quiet_elim, quiet_sleep.
Qed.

(** ** The invariant of the worker *)

Lemma hoare_modify (P : client -> Prop) (J : event -> Prop)
    (f : client -> client) (Q : res unit -> client -> Prop) :
  (forall c, P c -> Q (Ok tt) (f c)) -> hoare P (modify_self f) Q J.
Proof.
  intros H m Hm. simpl. split; [apply H; exact Hm | constructor].
Qed.

Lemma keeps_get_bind {A} (P : client -> Prop) (J : event -> Prop)
    (k : client -> M A) :
  (forall c0, keeps P J (k c0)) -> keeps P J (bind get_self k).
Proof.
  intros H m Hm. unfold bind. simpl. exact (H (self m) m Hm).
Qed.

(** ** The bracket of [process_request] *)

Section Bracket.

Variable E : env.

(** [R] is any property of the worker that the four counters written by
    [process_request] do not affect. *)
Variable R : client -> Prop.
Hypothesis R_load : forall z c, R c -> R (set_current_load z c).
Hypothesis R_total : forall z c, R c -> R (set_total_requests z c).
Hypothesis R_successful : forall z c, R c -> R (set_successful_requests z c).
Hypothesis R_time : forall q c, R c -> R (set_total_response_time q c).

Variable J : Z -> event -> Prop.
Variable L : Z.
Hypothesis J_outside : covers (fun c => current_load c = L /\ R c) (J L).
Hypothesis J_inside : covers (fun c => current_load c = (L + 1)%Z /\ R c) (J L).

(** [process_request] entered at load [L] runs its [try] block at load
    [L + 1] and gives the unit of load back in its [finally], however the
    block ends. *)
Lemma process_request_brackets (request_info : json) :
  keeps (fun c => current_load c = L /\ R c) (J L)
        (process_request E request_info).
Proof.
  set (inside := fun c => current_load c = (L + 1)%Z /\ R c).
  assert (Hin : forall A (p : M A), quiet p -> keeps inside (J L) p)
    by (intros A p Hq; apply keeps_quiet; [exact Hq | exact J_inside]).
  unfold process_request.
  apply keeps_bind; [apply keeps_subscript |]. intros request_id.
  apply keeps_bind; [apply keeps_quiet; [apply quiet_log | exact J_outside] |].
  intros _.
  apply hoare_time_bind. intros start_time.
  apply hoare_modify_bind with (P' := inside).
  { intros c [Hl Hr]. split; [simpl; lia | apply R_load; exact Hr]. }
  apply hoare_modify_bind with (P' := inside).
  { intros c [Hl Hr]. split; [exact Hl | apply R_total; exact Hr]. }
  apply hoare_try_finally with (Qm := inside).
  - apply keeps_try_except.
    + apply keeps_bind; [apply Hin, quiet_simulate_browser_processing |].
      intros _.
      apply hoare_modify_bind with (P' := inside).
      { intros c [Hl Hr]. split; [exact Hl | apply R_successful; exact Hr]. }
      apply hoare_time_bind. intros now. cbv zeta.
      apply hoare_modify_bind with (P' := inside).
      { intros c [Hl Hr]. split; [exact Hl | apply R_time; exact Hr]. }
      apply Hin, quiet_send_response.
    + intros e. apply keeps_bind; [apply Hin, quiet_log |].
      intros _. apply Hin, quiet_send_response.
  - apply hoare_modify.
    intros c [Hl Hr]. split; [simpl; lia | apply R_load; exact Hr].
Qed.

End Bracket.

(** A write to a field other than the poll interval. *)
Ltac steady_frame :=
  let c := fresh "c" in
  let Hl := fresh "Hl" in
  let Hb := fresh "Hb" in
  let Hi := fresh "Hi" in
  intros c (Hl & Hb & Hi);
  split; [simpl; lia | split; [exact Hb | exact Hi]].

Section Invariant.

Variable E : env.
Variable maxc : Z.

Lemma Qmin_30_bounded (q : Q) : Qmin q 30 <= 30.
Proof. apply Q.le_min_r. Qed.

Lemma Qmin_30_floor (q : Q) : 1 <= q -> 1 <= Qmin q 30.
Proof.
  intros H. destruct (Q.min_spec q 30) as [[_ ->] | [_ ->]]; lra.
Qed.

Lemma Qmax_1_floor (q : Q) : 1 <= Qmax q 1.
Proof. apply Q.le_max_r. Qed.

Lemma Qmax_1_bounded (q : Q) : q <= 30 -> Qmax q 1 <= 30.
Proof.
  intros H. destruct (Q.max_spec q 1) as [[_ ->] | [_ ->]]; lra.
Qed.

(** [update_poll_interval] keeps the interval bounded. *)
Lemma steady_update_poll_interval (k : Z) (c : client) :
  steady E maxc k c -> steady E maxc k (update_poll_interval c).
Proof.
  intros (Hl & Hb & Hhi & Hlo). unfold update_poll_interval.
  destruct (current_load c >=? max_concurrent c)%Z;
    [| destruct (current_load c =? 0)%Z];
    (split; [exact Hl | split; [exact Hb | split; simpl]]).
  - apply Qmin_30_bounded.
  - intros Hr. apply Qmin_30_floor. specialize (Hlo Hr). lra.
  - apply Qmax_1_bounded. lra.
  - intros _. apply Qmax_1_floor.
  - rewrite (proj2 Hb). lra.
  - intros _. rewrite (proj2 Hb). lra.
Qed.

(** In a steady state at the entry load every effect is admissible. *)
Lemma steady_observed (L : Z) (a : action) (c : client) :
  steady E maxc L c -> observed E maxc L (a, c).
Proof.
  intros (Hl & Hb & Hi). unfold observed. simpl.
  split; [lia | split; [exact (proj1 Hb) | split; [exact Hi | intros _; exact Hl]]].
Qed.

Lemma covers_steady (L k : Z) :
  (L <= k <= L + 1)%Z -> covers (steady E maxc k) (observed E maxc L).
Proof.
  intros Hk a c (Hl & Hb & Hi) Hn. unfold observed. simpl.
  split; [lia | split; [exact (proj1 Hb) |
                        split; [exact Hi | intros Hp; contradiction]]].
Qed.

(** An instance of the bracket: the steady states. *)
Lemma process_request_steady (L : Z) (request_info : json) :
  keeps (steady E maxc L) (observed E maxc L) (process_request E request_info).
Proof.
  apply process_request_brackets
    with (R := fun c => (max_concurrent c = maxc /\ base_poll_interval c = 5)
                        /\ interval_bounded E c)
         (J := observed E maxc);
    try (intros; assumption).
  - apply covers_steady. lia.
  - apply covers_steady. lia.
Qed.

(** [poll_for_requests] entered at load [L] returns at load [L]. *)
Lemma poll_for_requests_steady (L : Z) :
  keeps (steady E maxc L) (observed E maxc L) (poll_for_requests E).
Proof.
  assert (Hobs : forall a c, steady E maxc L c -> observed E maxc L (a, c))
    by (intros; now apply steady_observed).
  unfold poll_for_requests.
  apply keeps_get_bind. intros c0.
  destruct (negb (truthy (session_id c0))); [apply keeps_emit; auto |].
  apply hoare_time_bind. intros now.
  apply keeps_try_except; [| intros e; apply keeps_emit; auto].
  apply hoare_post_bind; [auto | | auto]. intros resp n Hn.
  destruct (Z.eqb_spec (status resp) 200) as [H200 | _];
    [| apply keeps_emit; auto].
  rewrite H200 in Hn. unfold response_json.
  destruct (json_body resp) as [data |] eqn:Hbody;
    [apply hoare_ret_bind | apply hoare_raise_bind; auto].
  unfold get_or at 1.
  destruct data as [| | | | | fields]; try (apply hoare_raise_bind; auto).
  assert (Hk : forall has_request,
    keeps (steady E maxc L) (observed E maxc L)
      (if truthy has_request
       then request_info <- subscript (JObj fields) "request" ;;
            process_request E request_info
       else c' <- get_self ;;
            recommended_interval <-
              get_or (JObj fields) "poll_interval"
                     (JNum (base_poll_interval c')) ;;
            capped <- min_30 recommended_interval ;;
            modify_self (set_current_poll_interval capped))).
  { intros has_request. destruct (truthy has_request).
    - apply keeps_bind; [apply keeps_subscript |]. intros request_info.
      apply process_request_steady.
    - apply hoare_pointwise. intros c1 (Hl & Hb & Hhi & Hlo).
      apply hoare_get_bind. intros c2 ->. simpl get_or.
      assert (Hfin : forall v q, as_number v = Some q ->
                (recommends_at_least_1s E -> 1 <= q) ->
                hoare (fun c => c = c1)
                  (capped <- min_30 v ;;
                   modify_self (set_current_poll_interval capped))
                  (fun _ c => steady E maxc L c) (observed E maxc L)).
      { intros v q Hq Hfloor. unfold min_30. rewrite Hq.
        apply hoare_ret_bind, hoare_modify. intros c ->.
        split; [exact Hl | split; [exact Hb | split; simpl]].
        - apply Qmin_30_bounded.
        - intros Hr. apply Qmin_30_floor. exact (Hfloor Hr). }
      destruct (assoc "poll_interval" fields) as [v |] eqn:Hv;
        apply hoare_ret_bind.
      + destruct (as_number v) as [q |] eqn:Hq.
        * apply (Hfin v q Hq). intros Hr.
          apply (Hr n (text resp) fields v q);
            [exact Hn | exact Hv | exact Hq].
        * unfold min_30. rewrite Hq. apply hoare_raise_bind.
          intros c ->. split; [exact Hl | split; [exact Hb | split; assumption]].
      + apply (Hfin (JNum (base_poll_interval c1)) (base_poll_interval c1) eq_refl).
        intros _. rewrite (proj2 Hb). lra. }
  destruct (assoc "has_request" fields) as [has_request |];
    apply hoare_ret_bind; apply Hk.
Qed.

Lemma polling_iteration_steady (L : Z) :
  keeps (steady E maxc L) (observed E maxc L) (polling_iteration E).
Proof.
  assert (Hobs : forall a c, steady E maxc L c -> observed E maxc L (a, c))
    by (intros; now apply steady_observed).
  unfold polling_iteration. apply keeps_try_except.
  - apply hoare_modify_bind with (P' := steady E maxc L);
      [intros c; apply steady_update_poll_interval |].
    apply keeps_bind; [apply poll_for_requests_steady |]. intros _.
    apply keeps_get_bind. intros c. apply keeps_emit. auto.
  - intros e. apply keeps_bind; intros; apply keeps_emit; auto.
Qed.

Lemma polling_turns_steady (L : Z) (fuel : nat) :
  keeps (steady E maxc L) (observed E maxc L) (polling_turns E fuel).
Proof.
  induction fuel as [| fuel IH]; simpl; [apply keeps_ret |].
  apply keeps_get_bind. intros c.
  destruct (running c); [| apply keeps_ret].
  apply keeps_bind; [apply polling_iteration_steady | intros _; exact IH].
Qed.

Lemma polling_loop_steady (L : Z) (fuel : nat) :
  keeps (steady E maxc L) (observed E maxc L) (polling_loop E fuel).
Proof.
  unfold polling_loop.
  apply keeps_bind; [| intros _; apply polling_turns_steady].
  apply keeps_emit. intros; now apply steady_observed.
Qed.

Lemma register_steady (L : Z) :
  keeps (steady E maxc L) (observed E maxc L) (register E).
Proof.
  assert (Hobs : forall a c, steady E maxc L c -> observed E maxc L (a, c))
    by (intros; now apply steady_observed).
  unfold register. apply keeps_get_bind. intros c. cbv zeta.
  apply keeps_try_except.
  - apply hoare_post_bind; [auto | | auto]. intros resp n _.
    destruct (status resp =? 200)%Z; [| apply keeps_raise].
    apply keeps_bind;
      [unfold response_json; destruct (json_body resp);
       [apply keeps_ret | apply keeps_raise] |].
    intros data. apply keeps_bind; [apply keeps_subscript |]. intros sid.
    apply hoare_modify_bind with (P' := steady E maxc L); [steady_frame |].
    apply keeps_emit. auto.
  - intros e. apply keeps_bind; [apply keeps_emit; auto |].
    intros _. apply keeps_raise.
Qed.

Lemma start_steady (L : Z) (fuel : nat) :
  keeps (steady E maxc L) (observed E maxc L) (start E fuel).
Proof.
  unfold start. apply keeps_get_bind. intros c.
  apply keeps_bind;
    [apply keeps_emit; intros; now apply steady_observed |]. intros _.
  apply keeps_bind; [apply register_steady |]. intros _.
  apply hoare_modify_bind with (P' := steady E maxc L); [steady_frame |].
  apply polling_loop_steady.
Qed.

Lemma init_steady (url cid : string) :
  steady E maxc 0 (init url cid maxc).
Proof.
  split; [reflexivity | split; [split; reflexivity | split; simpl]].
  - lra.
  - intros _. lra.
Qed.

(** Whatever the world answers, a freshly made worker run by [start] is
    steady at load zero when the observation ends, and all its effects
    are admissible. *)
Lemma run_of_a_fresh_worker (url cid : string) (fuel : nat) :
  let r := start E fuel (boot (init url cid maxc)) in
  steady E maxc 0 (self (final r)) /\ Forall (observed E maxc 0) (trace r).
Proof.
  exact (start_steady 0 fuel (boot (init url cid maxc))
                      (init_steady url cid)).
Qed.

End Invariant.

(** ** Big-step rules *)

Lemma reports_app (tr1 tr2 : list event) :
  reports (tr1 ++ tr2) = (reports tr1 ++ reports tr2)%list.
Proof.
  induction tr1 as [| [a c] tr1 IH]; simpl; [reflexivity |].
  destruct a; simpl; rewrite IH; reflexivity.
Qed.

Lemma yields_ret {A} (a : A) (m : machine) : yields (ret a) m (Ok a) m [].
Proof. repeat split. Qed.

Lemma yields_bind {A B} (p : M A) (k : A -> M B) (m m1 m2 : machine)
    (a : A) (r : res B) (sent1 sent2 : list json) :
  yields p m (Ok a) m1 sent1 ->
  yields (k a) m1 r m2 sent2 ->
  yields (bind p k) m r m2 (sent1 ++ sent2).
Proof.
  intros (Hr & Hf & Hs) (Hr' & Hf' & Hs'). unfold yields, bind.
  rewrite Hr. simpl. rewrite Hf, reports_app, Hs, Hr', Hf', Hs'.
  repeat split.
Qed.

Lemma yields_bind_raise {A B} (p : M A) (k : A -> M B) (m m1 : machine)
    (e : exn) (sent : list json) :
  yields p m (Raise e) m1 sent ->
  yields (bind p k) m (Raise e) m1 sent.
Proof.
  intros (Hr & Hf & Hs). unfold yields, bind.
  rewrite Hr. simpl. repeat split; assumption.
Qed.

Lemma yields_try_except_ok {A} (p : M A) (h : exn -> M A) (m m1 : machine)
    (a : A) (sent : list json) :
  yields p m (Ok a) m1 sent ->
  yields (try_except p h) m (Ok a) m1 sent.
Proof.
  intros (Hr & Hf & Hs). unfold yields, try_except.
  rewrite Hr. repeat split; assumption.
Qed.

Lemma yields_try_except_caught {A} (p : M A) (h : exn -> M A)
    (m m1 m2 : machine) (e : exn) (r : res A) (sent1 sent2 : list json) :
  yields p m (Raise e) m1 sent1 ->
  is_Exception e = true ->
  yields (h e) m1 r m2 sent2 ->
  yields (try_except p h) m r m2 (sent1 ++ sent2).
Proof.
  intros (Hr & Hf & Hs) He (Hr' & Hf' & Hs'). unfold yields, try_except.
  rewrite Hr, He. simpl. rewrite Hf, reports_app, Hs, Hr', Hf', Hs'.
  repeat split.
Qed.

Lemma yields_try_finally {A} (p : M A) (f : M unit) (m m1 m2 : machine)
    (r : res A) (sent1 sent2 : list json) :
  yields p m r m1 sent1 ->
  yields f m1 (Ok tt) m2 sent2 ->
  yields (try_finally p f) m r m2 (sent1 ++ sent2).
Proof.
  intros (<- & <- & <-) (Hr' & <- & <-). unfold yields, try_finally.
  cbv zeta. rewrite Hr'. simpl. rewrite reports_app. repeat split.
Qed.

Lemma yields_modify (f : client -> client) (m : machine) :
  yields (modify_self f) m (Ok tt)
         (mkMachine (f (self m)) (posts m) (ticks m)) [].
Proof. repeat split. Qed.

Lemma yields_time (E : env) (m : machine) :
  yields (time_time E) m (Ok (clock E (ticks m)))
         (mkMachine (self m) (posts m) (S (ticks m))) [].
Proof. repeat split. Qed.

Lemma yields_log (lvl : level) (msg : logmsg) (m : machine) :
  yields (log lvl msg) m (Ok tt) m [].
Proof. repeat split. Qed.

Lemma yields_sleep (q : Q) (m : machine) : yields (sleep q) m (Ok tt) m [].
Proof. repeat split. Qed.

(** ** The report calls *)

(** With a session and no cancellation, [send_response] makes exactly one
    POST, carrying its argument, and returns normally whatever the
    dispatcher answers. *)
Lemma send_response_sent (E : env) (response_data : json) (m : machine) :
  truthy (session_id (self m)) = true ->
  (forall e, http E (posts m) = NetRaise e -> is_Exception e = true) ->
  yields (send_response E response_data) m (Ok tt)
         (mkMachine (self m) (S (posts m)) (ticks m)) [response_data].
Proof.
  intros Hs Hc. unfold yields, send_response, bind, try_except, session_post.
  simpl. rewrite Hs. simpl.
  destruct (http E (posts m)) as [e | st txt body] eqn:Hn; simpl.
  - rewrite (Hc e eq_refl). simpl. repeat split.
  - destruct (negb (st =? 200)%Z); simpl; repeat split.
Qed.

(** Without a session, [send_response] only logs a warning. *)
Lemma send_response_unregistered (E : env) (response_data : json)
    (m : machine) :
  truthy (session_id (self m)) = false ->
  send_response E response_data m =
    mkRun (Ok tt) m [(Log WARNING NoSessionCannotSend, self m)].
Proof.
  intros Hs. unfold send_response, bind. simpl. rewrite Hs. reflexivity.
Qed.

(** C10.  Without a session id (none, or an empty one) the three report
    calls make no HTTP call: each returns normally, leaves the machine as
    it was (the worker's load, counters and interval, and the count of
    POSTs made) and its only effect is the warning in the log. *)
Theorem reports_without_session_are_dropped (E : env) (m : machine)
    (request_id : json) (content full_response error_message : string)
    (sequence : nat) (response_time_ms : Q) :
  truthy (session_id (self m)) = false ->
  let dropped := mkRun (Ok tt) m [(Log WARNING NoSessionCannotSend, self m)] in
  send_chunk E request_id content sequence m = dropped /\
  send_completion E request_id full_response response_time_ms m = dropped /\
  send_error E request_id error_message m = dropped /\
  reports (trace dropped) = [].
Proof.
  intros Hs dropped. unfold send_chunk, send_completion, send_error.
  repeat split; apply send_response_unregistered; exact Hs.
Qed.

Lemma reports_without_session_are_dropped_witness :
  let m := boot (init "http://dispatcher/" "worker-1" 5) in
  let dropped := mkRun (Ok tt) m [(Log WARNING NoSessionCannotSend, self m)] in
  send_chunk (Sample.world []) (JStr "req-1") "Hello" 0 m = dropped /\
  send_completion (Sample.world []) (JStr "req-1") "Simulated response" 1 m
    = dropped /\
  send_error (Sample.world []) (JStr "req-1") "boom" m = dropped /\
  reports (trace dropped) = [].
Proof.
  apply (reports_without_session_are_dropped (Sample.world [])
           (boot (init "http://dispatcher/" "worker-1" 5))).
  reflexivity.
Defined.

(** ** Streaming *)

Lemma yields_eq {A} (p : M A) (m m1 m2 : machine) (r : res A)
    (sent1 sent2 : list json) :
  yields p m r m1 sent1 -> m1 = m2 -> sent1 = sent2 -> yields p m r m2 sent2.
Proof. intros H <- <-. exact H. Qed.

Lemma yields_run {A} (p : M A) (m : machine) :
  yields p m (result (p m)) (final (p m)) (reports (trace (p m))).
Proof. repeat split. Qed.

Lemma yields_subscript (fields : list (string * json)) (k : string)
    (v : json) (m : machine) :
  assoc k fields = Some v -> yields (subscript (JObj fields) k) m (Ok v) m [].
Proof.
  intros H. unfold subscript. rewrite H. apply yields_ret.
Qed.

Lemma sequence_numbers_chunk_reports (request_id : json) (cs : list string) :
  forall i,
    sequence_numbers (chunk_reports request_id i cs) =
    map (fun j => Some (of_nat j)) (seq i (List.length cs)).
Proof.
  induction cs as [| chunk rest IH]; intros i; simpl; [reflexivity |].
  f_equal. apply IH.
Qed.

Section Streaming.

Variable E : env.
Hypothesis no_cancel : never_cancelled E.

Variable fields : list (string * json).
Variable request_id : json.
Hypothesis has_request_id : assoc "request_id" fields = Some request_id.

(** The streaming loop POSTs one chunk report per chunk, numbered in the
    order of the list. *)
Lemma for_enumerate_chunks_sent (cs : list string) :
  forall i m,
    truthy (session_id (self m)) = true ->
    yields (for_enumerate i cs (fun i chunk =>
              request_id <- subscript (JObj fields) "request_id" ;;
              send_chunk E request_id chunk i ;;
              sleep (1 # 10)))
           m (Ok tt)
           (mkMachine (self m) (List.length cs + posts m) (ticks m))
           (chunk_reports request_id i cs).
Proof.
  induction cs as [| chunk rest IH]; intros i m Hs; simpl for_enumerate.
  - destruct m. apply yields_ret.
  - eapply yields_eq.
    + eapply yields_bind.
      * eapply yields_bind; [apply yields_subscript, has_request_id |].
        eapply yields_bind; [| apply yields_sleep].
        apply send_response_sent; [exact Hs | intros e; apply no_cancel].
      * apply IH. exact Hs.
    + simpl. f_equal. lia.
    + reflexivity.
Qed.

Lemma stream_chunks_sent (cs : list string) (m : machine) :
  truthy (session_id (self m)) = true ->
  yields (stream_chunks E (JObj fields) cs) m (Ok tt)
         (mkMachine (self m) (List.length cs + posts m) (ticks m))
         (chunk_reports request_id 0 cs).
Proof.
  intros Hs. unfold stream_chunks. apply for_enumerate_chunks_sent. exact Hs.
Qed.

Variables model messages : json.
Hypothesis has_model : assoc "model" fields = Some model.
Hypothesis has_messages : assoc "messages" fields = Some messages.
Hypothesis streams : forall s, assoc "stream" fields = Some s -> truthy s = true.

Lemma simulate_browser_processing_streams (m : machine) :
  truthy (session_id (self m)) = true ->
  yields (simulate_browser_processing E (JObj fields)) m (Ok tt)
         (mkMachine (self m) (8 + posts m) (ticks m))
         (chunk_reports request_id 0 chunks).
Proof.
  intros Hs. unfold simulate_browser_processing.
  eapply yields_eq.
  - eapply yields_bind; [apply yields_subscript, has_model |].
    eapply yields_bind; [apply yields_subscript, has_messages |].
    unfold get_or.
    destruct (assoc "stream" fields) as [s |] eqn:Hstream.
    + eapply yields_bind; [apply yields_ret |].
      eapply yields_bind; [apply yields_log |].
      rewrite (streams s eq_refl). apply stream_chunks_sent. exact Hs.
    + eapply yields_bind; [apply yields_ret |].
      eapply yields_bind; [apply yields_log |].
      simpl truthy. cbv iota. apply stream_chunks_sent. exact Hs.
  - reflexivity.
  - reflexivity.
Qed.

Lemma process_request_streams (m : machine) :
  truthy (session_id (self m)) = true ->
  let response_time := (clock E (S (ticks m)) - clock E (ticks m)) * 1000 in
  exists m',
    yields (process_request E (JObj fields)) m (Ok tt) m'
      (chunk_reports request_id 0 chunks ++
       [completion_data request_id "Simulated response" response_time]) /\
    posts m' = (posts m + 9)%nat /\
    current_load (self m') = current_load (self m) /\
    total_requests (self m') = (total_requests (self m) + 1)%Z /\
    successful_requests (self m') = (successful_requests (self m) + 1)%Z.
Proof.
  intros Hs response_time. eexists. split.
  - unfold process_request. eapply yields_eq.
    + eapply yields_bind; [apply yields_subscript, has_request_id |].
      eapply yields_bind; [apply yields_log |].
      eapply yields_bind; [apply yields_time |].
      eapply yields_bind; [apply yields_modify |].
      eapply yields_bind; [apply yields_modify |].
      eapply yields_try_finally; [| apply yields_modify].
      apply yields_try_except_ok.
      eapply yields_bind;
        [apply simulate_browser_processing_streams; exact Hs |].
      eapply yields_bind; [apply yields_modify |].
      eapply yields_bind; [apply yields_time |].
      cbv zeta.
      eapply yields_bind; [apply yields_modify |].
      apply send_response_sent; [exact Hs | intros e; apply no_cancel].
    + reflexivity.
    + simpl. reflexivity.
  - simpl. repeat split; lia.
Qed.

End Streaming.

(** ** Exact runs *)

Lemma runs_eq {A} (p : M A) (m m1 m2 : machine) (r : res A)
    (tr1 tr2 : list event) :
  runs p m r m1 tr1 -> m1 = m2 -> tr1 = tr2 -> runs p m r m2 tr2.
Proof. intros H <- <-. exact H. Qed.

Lemma runs_ret {A} (a : A) (m : machine) : runs (ret a) m (Ok a) m [].
Proof. reflexivity. Qed.

Lemma runs_bind {A B} (p : M A) (k : A -> M B) (m m1 m2 : machine) (a : A)
    (r : res B) (tr1 tr2 : list event) :
  runs p m (Ok a) m1 tr1 ->
  runs (k a) m1 r m2 tr2 ->
  runs (bind p k) m r m2 (tr1 ++ tr2).
Proof.
  unfold runs, bind. intros H1 H2. rewrite H1.
  cbn [result final trace]. rewrite H2. reflexivity.
Qed.

Lemma runs_bind_raise {A B} (p : M A) (k : A -> M B) (m m1 : machine)
    (e : exn) (tr : list event) :
  runs p m (Raise e) m1 tr ->
  runs (bind p k) m (Raise e) m1 tr.
Proof.
  unfold runs, bind. intros H1. rewrite H1. reflexivity.
Qed.

Lemma runs_try_except_ok {A} (p : M A) (h : exn -> M A) (m m1 : machine)
    (a : A) (tr : list event) :
  runs p m (Ok a) m1 tr ->
  runs (try_except p h) m (Ok a) m1 tr.
Proof.
  unfold runs, try_except. intros H1. rewrite H1. reflexivity.
Qed.

Lemma runs_try_except_caught {A} (p : M A) (h : exn -> M A)
    (m m1 m2 : machine) (e : exn) (r : res A) (tr1 tr2 : list event) :
  runs p m (Raise e) m1 tr1 ->
  is_Exception e = true ->
  runs (h e) m1 r m2 tr2 ->
  runs (try_except p h) m r m2 (tr1 ++ tr2).
Proof.
  unfold runs, try_except. intros H1 He H2. rewrite H1.
  cbn [result final trace]. rewrite He, H2. reflexivity.
Qed.

Lemma runs_get_self (m : machine) : runs get_self m (Ok (self m)) m [].
Proof. reflexivity. Qed.

Lemma runs_modify (f : client -> client) (m : machine) :
  runs (modify_self f) m (Ok tt)
       (mkMachine (f (self m)) (posts m) (ticks m)) [].
Proof. reflexivity. Qed.

Lemma runs_time (E : env) (m : machine) :
  runs (time_time E) m (Ok (clock E (ticks m)))
       (mkMachine (self m) (posts m) (S (ticks m))) [].
Proof. reflexivity. Qed.

Lemma runs_emit (a : action) (m : machine) :
  runs (emit a) m (Ok tt) m [(a, self m)].
Proof. reflexivity. Qed.

Lemma runs_post_reply (E : env) (url : string) (hdr : option json)
    (payload : json) (m : machine) (st : Z) (txt : string)
    (body : option json) :
  http E (posts m) = NetReply st txt body ->
  runs (session_post E url hdr payload) m (Ok (mkResponse st txt body))
       (mkMachine (self m) (S (posts m)) (ticks m))
       [(Post url hdr payload, self m)].
Proof.
  intros H. unfold runs, session_post. rewrite H. reflexivity.
Qed.

Lemma runs_post_raise (E : env) (url : string) (hdr : option json)
    (payload : json) (m : machine) (e : exn) :
  http E (posts m) = NetRaise e ->
  runs (session_post E url hdr payload) m (Raise e)
       (mkMachine (self m) (S (posts m)) (ticks m))
       [(Post url hdr payload, self m)].
Proof.
  intros H. unfold runs, session_post. rewrite H. reflexivity.
Qed.

(** ** One turn of the polling loop *)

Lemma update_poll_interval_session (c : client) :
  session_id (update_poll_interval c) = session_id c.
Proof.
  unfold update_poll_interval.
  destruct (current_load c >=? max_concurrent c)%Z;
    [| destruct (current_load c =? 0)%Z]; reflexivity.
Qed.

Lemma update_poll_interval_running (c : client) :
  running (update_poll_interval c) = running c.
Proof.
  unfold update_poll_interval.
  destruct (current_load c >=? max_concurrent c)%Z;
    [| destruct (current_load c =? 0)%Z]; reflexivity.
Qed.

Lemma runs_run {A} (p : M A) (m : machine) :
  runs p m (result (p m)) (final (p m)) (trace (p m)).
Proof. unfold runs. destruct (p m). reflexivity. Qed.

(** A turn that ends normally is followed by the rest of the loop. *)
Lemma polling_turns_step (E : env) (fuel : nat) (m m1 : machine)
    (tr : list event) :
  running (self m) = true ->
  runs (polling_iteration E) m (Ok tt) m1 tr ->
  runs (polling_turns E (S fuel)) m
       (result (polling_turns E fuel m1))
       (final (polling_turns E fuel m1))
       (tr ++ trace (polling_turns E fuel m1)).
Proof.
  intros Hrun Hit. simpl polling_turns.
  eapply runs_eq.
  - eapply runs_bind; [apply runs_get_self |].
    rewrite Hrun.
    eapply runs_bind; [exact Hit | apply runs_run].
  - reflexivity.
  - reflexivity.
Qed.

(** An idle answer that carries a number as [poll_interval]. *)
Lemma poll_for_requests_idle (E : env) (m : machine) (txt : string)
    (fields : list (string * json)) (v : json) (r : Q) :
  truthy (session_id (self m)) = true ->
  http E (posts m) = NetReply 200 txt (Some (JObj fields)) ->
  (forall h, assoc "has_request" fields = Some h -> truthy h = false) ->
  assoc "poll_interval" fields = Some v ->
  as_number v = Some r ->
  runs (poll_for_requests E) m (Ok tt)
    (mkMachine (set_current_poll_interval (Qmin r 30) (self m))
               (S (posts m)) (S (ticks m)))
    [ (Post (poll_url (self m)) (Some (session_id (self m)))
            (poll_data (self m) (clock E (ticks m))), self m) ].
Proof.
  intros Hs Hn Hh Hv Hr.
  unfold poll_for_requests.
  eapply runs_eq.
  - eapply runs_bind; [apply runs_get_self |].
    rewrite Hs. cbn [negb].
    eapply runs_bind; [apply runs_time |].
    apply runs_try_except_ok.
    eapply runs_bind; [apply runs_post_reply; exact Hn |].
    cbn [status]. change (200 =? 200)%Z with true. cbv iota.
    eapply runs_bind; [unfold response_json; cbn [json_body]; apply runs_ret |].
    unfold get_or.
    assert (Hk : forall has_request, truthy has_request = false ->
      runs (if truthy has_request
            then request_info <- subscript (JObj fields) "request" ;;
                 process_request E request_info
            else c' <- get_self ;;
                 recommended_interval <-
                   match assoc "poll_interval" fields with
                   | Some v => ret v
                   | None => ret (JNum (base_poll_interval c'))
                   end ;;
                 capped <- min_30 recommended_interval ;;
                 modify_self (set_current_poll_interval capped))
           (mkMachine (self m) (S (posts m)) (S (ticks m))) (Ok tt)
           (mkMachine (set_current_poll_interval (Qmin r 30) (self m))
                      (S (posts m)) (S (ticks m))) []).
    { intros h Hf. rewrite Hf.
      eapply runs_eq.
      - eapply runs_bind; [apply runs_get_self |].
        rewrite Hv.
        eapply runs_bind; [apply runs_ret |].
        unfold min_30. rewrite Hr.
        eapply runs_bind; [apply runs_ret |].
        apply runs_modify.
      - reflexivity.
      - reflexivity. }
    destruct (assoc "has_request" fields) as [h |] eqn:Hhr.
    + eapply runs_bind; [apply runs_ret |]. apply Hk. apply Hh. reflexivity.
    + eapply runs_bind; [apply runs_ret |]. apply Hk. reflexivity.
  - reflexivity.
  - reflexivity.
Qed.

(** A poll whose POST raises an [Exception]. *)
Lemma poll_for_requests_transport_failure (E : env) (m : machine) (e : exn) :
  truthy (session_id (self m)) = true ->
  http E (posts m) = NetRaise e ->
  is_Exception e = true ->
  runs (poll_for_requests E) m (Ok tt)
    (mkMachine (self m) (S (posts m)) (S (ticks m)))
    [ (Post (poll_url (self m)) (Some (session_id (self m)))
            (poll_data (self m) (clock E (ticks m))), self m);
      (Log ERROR (PollingError e), self m) ].
Proof.
  intros Hs Hn He.
  unfold poll_for_requests.
  eapply runs_eq.
  - eapply runs_bind; [apply runs_get_self |].
    rewrite Hs. cbn [negb].
    eapply runs_bind; [apply runs_time |].
    eapply runs_try_except_caught; [| exact He | apply runs_emit].
    apply runs_bind_raise. apply runs_post_raise. exact Hn.
  - reflexivity.
  - reflexivity.
Qed.

(** A turn of the loop around a poll that ends normally in [m1] with the
    effects [tr]: the interval is recomputed first, and the pause that
    follows is the interval the poll left. *)
Lemma polling_iteration_around (E : env) (m m1 : machine) (tr : list event) :
  runs (poll_for_requests E)
       (mkMachine (update_poll_interval (self m)) (posts m) (ticks m))
       (Ok tt) m1 tr ->
  runs (polling_iteration E) m (Ok tt) m1
       (tr ++ [(Sleep (current_poll_interval (self m1)), self m1)]).
Proof.
  intros Hp. unfold polling_iteration.
  apply runs_try_except_ok.
  eapply runs_eq.
  - eapply runs_bind; [apply runs_modify |].
    eapply runs_bind; [exact Hp |].
    eapply runs_bind; [apply runs_get_self |].
    apply runs_emit.
  - reflexivity.
  - reflexivity.
Qed.

(** [poll_for_requests] handles every [Exception] itself. *)
Lemma poll_for_requests_raises_no_Exception (E : env) (m : machine) (e : exn) :
  result (poll_for_requests E m) = Raise e -> is_Exception e = false.
Proof.
  unfold poll_for_requests, bind at 1. cbn [get_self result final trace].
  destruct (negb (truthy (session_id (self m)))); [discriminate |].
  unfold bind at 1. cbn [time_time result final trace].
  unfold try_except.
  match goal with
  | |- context [result (?p ?m')] =>
      destruct (result (p m')) as [u | e0] eqn:Hres
  end; cbn [result]; rewrite ?Hres; [discriminate |].
  destruct (is_Exception e0) eqn:He0; cbn [log emit result].
  - discriminate.
  - rewrite Hres. intros H. injection H as <-. exact He0.
Qed.

(** So the [except] branch of [polling_loop], with its pause of five
    seconds, is never entered: a turn of the loop is its [try] block. *)
Lemma polling_iteration_is_its_try_block (E : env) (m : machine) :
  polling_iteration E m =
    (modify_self update_poll_interval ;;
     poll_for_requests E ;;
     c <- get_self ;;
     sleep (current_poll_interval c)) m.
Proof.
  unfold polling_iteration, try_except.
  match goal with
  | |- match result ?b with _ => _ end = _ =>
      destruct (result b) as [u | e] eqn:Hres; [reflexivity |]
  end.
  assert (He : is_Exception e = false); [| rewrite He; reflexivity].
  revert Hres. unfold bind at 1. cbn [modify_self result final trace].
  unfold bind at 1.
  destruct (result (poll_for_requests E _)) as [u | e0] eqn:Hpoll;
    cbn [result].
  - unfold bind. cbn [get_self sleep emit result final trace]. discriminate.
  - intros H. injection H as <-.
    exact (poll_for_requests_raises_no_Exception E _ _ Hpoll).
Qed.

(** C7.  A turn of the loop whose poll is answered by an idle outcome
    carrying the recommendation [r] ends with the interval set to
    [min r 30], whatever [update_poll_interval] had computed at the start
    of the turn; the pause of the turn lasts [min r 30] seconds, and the
    next turn, hence the next poll, comes after that pause. *)
Theorem idle_poll_adopts_recommended_interval (E : env) (m : machine)
    (txt : string) (fields : list (string * json)) (v : json) (r : Q)
    (fuel : nat) :
  running (self m) = true ->
  truthy (session_id (self m)) = true ->
  http E (posts m) = NetReply 200 txt (Some (JObj fields)) ->
  (forall h, assoc "has_request" fields = Some h -> truthy h = false) ->
  assoc "poll_interval" fields = Some v ->
  as_number v = Some r ->
  let c1 := update_poll_interval (self m) in
  let c2 := set_current_poll_interval (Qmin r 30) c1 in
  let m2 := mkMachine c2 (S (posts m)) (S (ticks m)) in
  runs (polling_iteration E) m (Ok tt) m2
    [ (Post (poll_url c1) (Some (session_id c1))
            (poll_data c1 (clock E (ticks m))), c1);
      (Sleep (Qmin r 30), c2) ]
  /\ sleeps (trace (polling_iteration E m)) = [Qmin r 30]
  /\ trace (polling_turns E (S fuel) m) =
       (trace (polling_iteration E m) ++ trace (polling_turns E fuel m2))%list.
Proof.
  intros Hrun Hs Hn Hh Hv Hr c1 c2 m2.
  assert (Hit : runs (polling_iteration E) m (Ok tt) m2
    [ (Post (poll_url c1) (Some (session_id c1))
            (poll_data c1 (clock E (ticks m))), c1);
      (Sleep (Qmin r 30), c2) ]).
  { apply (polling_iteration_around E m m2
             [ (Post (poll_url c1) (Some (session_id c1))
                     (poll_data c1 (clock E (ticks m))), c1) ]).
    apply (poll_for_requests_idle E
             (mkMachine c1 (posts m) (ticks m)) txt fields v r);
      try assumption.
    unfold c1. simpl. rewrite update_poll_interval_session. exact Hs. }
  split; [exact Hit |].
  pose proof (polling_turns_step E fuel m m2 _ Hrun Hit) as Hstep.
  unfold runs in Hit, Hstep. rewrite Hstep, Hit. split; reflexivity.
Qed.

(** Scenario A: a registered worker whose poll is answered
    [{has_request: false, poll_interval: 10}] pauses 10 seconds. *)
Lemma idle_poll_adopts_recommended_interval_witness :
  let W := Sample.world [Sample.registered; Sample.idle_recommending 10] in
  let m := Sample.registered_worker in
  let fields := [("has_request", JBool false); ("poll_interval", JNum 10)] in
  running (self m) = true /\
  truthy (session_id (self m)) = true /\
  http W (posts m) = NetReply 200 "ok" (Some (JObj fields)) /\
  (forall h, assoc "has_request" fields = Some h -> truthy h = false) /\
  assoc "poll_interval" fields = Some (JNum 10) /\
  as_number (JNum 10) = Some 10 /\
  sleeps (trace (polling_iteration W m)) = [10].
Proof.
  intros W m fields.
  assert (Hh : forall h, assoc "has_request" fields = Some h ->
                         truthy h = false).
  { intros h H. simpl in H. injection H as <-. reflexivity. }
  do 6 (split; [first [reflexivity | exact Hh] |]).
  exact (proj1 (proj2
    (idle_poll_adopts_recommended_interval W m "ok" fields (JNum 10) 10 1
       eq_refl eq_refl eq_refl Hh eq_refl eq_refl))).
Defined.

(** C8, as the code has it.  When the POST of a poll raises an
    [Exception] (a timeout included), the turn of the loop still ends
    normally: the failure is logged by [poll_for_requests], the worker
    pauses for its current poll interval, the one [update_poll_interval]
    computed at the start of the turn, and the loop goes on to its next
    turn with [running] still set. *)
Theorem poll_failure_is_logged_and_polling_goes_on (E : env) (m : machine)
    (e : exn) (fuel : nat) :
  running (self m) = true ->
  truthy (session_id (self m)) = true ->
  http E (posts m) = NetRaise e ->
  is_Exception e = true ->
  let c1 := update_poll_interval (self m) in
  let m1 := mkMachine c1 (S (posts m)) (S (ticks m)) in
  runs (polling_iteration E) m (Ok tt) m1
    [ (Post (poll_url c1) (Some (session_id c1))
            (poll_data c1 (clock E (ticks m))), c1);
      (Log ERROR (PollingError e), c1);
      (Sleep (current_poll_interval c1), c1) ]
  /\ running (self m1) = true
  /\ trace (polling_turns E (S fuel) m) =
       (trace (polling_iteration E m) ++ trace (polling_turns E fuel m1))%list.
Proof.
  intros Hrun Hs Hn He c1 m1.
  assert (Hit : runs (polling_iteration E) m (Ok tt) m1
    [ (Post (poll_url c1) (Some (session_id c1))
            (poll_data c1 (clock E (ticks m))), c1);
      (Log ERROR (PollingError e), c1);
      (Sleep (current_poll_interval c1), c1) ]).
  { apply (polling_iteration_around E m m1
             [ (Post (poll_url c1) (Some (session_id c1))
                     (poll_data c1 (clock E (ticks m))), c1);
               (Log ERROR (PollingError e), c1) ]).
    apply (poll_for_requests_transport_failure E
             (mkMachine c1 (posts m) (ticks m)) e);
      try assumption.
    unfold c1. simpl. rewrite update_poll_interval_session. exact Hs. }
  split; [exact Hit |].
  split; [unfold m1, c1; simpl; rewrite update_poll_interval_running; exact Hrun |].
  pose proof (polling_turns_step E fuel m m1 _ Hrun Hit) as Hstep.
  unfold runs in Hit, Hstep. rewrite Hstep, Hit. reflexivity.
Qed.

Lemma poll_failure_is_logged_and_polling_goes_on_witness :
  let W := Sample.world [Sample.registered;
                         NetRaise (TransportError "timed out")] in
  let m := Sample.registered_worker in
  running (self m) = true /\
  truthy (session_id (self m)) = true /\
  http W (posts m) = NetRaise (TransportError "timed out") /\
  is_Exception (TransportError "timed out") = true /\
  result (polling_iteration W m) = Ok tt /\
  acts (trace (polling_iteration W m)) =
    [ Post "http://dispatcher/api/browser/poll.php" (Some (JStr "sess-1"))
           (poll_data (update_poll_interval (self m)) 0);
      Log ERROR (PollingError (TransportError "timed out"));
      Sleep (5 * (4 # 5)) ].
Proof.
  intros W m.
  do 4 (split; [reflexivity |]).
  pose proof (proj1
    (poll_failure_is_logged_and_polling_goes_on W m
       (TransportError "timed out") 1 eq_refl eq_refl eq_refl eq_refl)) as H.
  unfold runs in H. rewrite H. split; reflexivity.
Defined.

(** C8 as stated fails: after a failed poll the worker of the sample
    pauses 4 seconds (its interval of 5 seconds, just multiplied by 0.8),
    not the fixed 5 seconds. *)
Lemma pause_after_a_failed_poll_is_not_fixed :
  let r := Sample.session [Sample.registered;
                           NetRaise (TransportError "timed out")] 5 1 in
  result r = Ok tt /\
  exists q, sleeps (trace r) = [q] /\ q == 4 /\ ~ q == 5.
Proof.
  split; [vm_compute; reflexivity |].
  exists (20 # 5). split; [vm_compute; reflexivity |].
  split; [reflexivity |]. intros H. discriminate H.
Qed.

(** ** The sample worlds *)

Lemma world_answers (P : post_outcome -> Prop) (replies : list post_outcome) :
  Forall P replies -> P Sample.idle ->
  forall n, P (http (Sample.world replies) n).
Proof.
  intros HF Hd n. simpl.
  destruct (nth_in_or_default n replies Sample.idle) as [Hin | ->];
    [| exact Hd].
  rewrite Forall_forall in HF. apply HF. exact Hin.
Qed.

Lemma world_never_cancelled (replies : list post_outcome) :
  Forall (fun reply => forall e, reply = NetRaise e -> is_Exception e = true)
         replies ->
  never_cancelled (Sample.world replies).
Proof.
  intros HF n.
  apply (world_answers
           (fun reply => forall e, reply = NetRaise e -> is_Exception e = true));
    [exact HF | discriminate].
Qed.

Lemma world_recommends_at_least_1s (replies : list post_outcome) :
  Forall (fun reply => forall txt fields v q,
            reply = NetReply 200 txt (Some (JObj fields)) ->
            assoc "poll_interval" fields = Some v ->
            as_number v = Some q -> 1 <= q) replies ->
  recommends_at_least_1s (Sample.world replies).
Proof.
  intros HF n txt fields v q.
  apply (world_answers
           (fun reply => forall txt fields v q,
              reply = NetReply 200 txt (Some (JObj fields)) ->
              assoc "poll_interval" fields = Some v ->
              as_number v = Some q -> 1 <= q)); [exact HF |].
  intros txt' fields' v' q' H Hv. injection H as _ <-.
  discriminate Hv.
Qed.

(** ** The poll interval *)




(** ** The load *)

Lemma polls_at_load_zero (E : env) (url cid : string) (maxc : Z) (fuel : nat) :
  Forall (fun ev => (current_load (snd ev) <= 1)%Z /\
                    forall hdr payload,
                      fst ev = Post (poll_url (snd ev)) hdr payload ->
                      current_load (snd ev) = 0%Z)
         (trace (start E fuel (boot (init url cid maxc)))).
Proof.
  destruct (run_of_a_fresh_worker E maxc url cid fuel) as [_ Hobs].
  eapply Forall_impl; [| exact Hobs].
  intros ev ([_ H1] & _ & _ & Hp). split; [exact H1 |].
  intros hdr payload Hev. apply Hp. exists hdr, payload. exact Hev.
Qed.

(** C2, what the code does.  [poll_for_requests] awaits [process_request]:
    in every run of a freshly made worker each poll is sent at load zero,
    that is with no request in flight, and the load never exceeds one.
    So for the worker of the samples, configured for five concurrent
    requests and assigned a streaming request at its first poll: its
    second poll comes after the eight chunk reports and the completion
    report of that request. *)
Theorem polls_are_sent_with_no_request_in_flight :
  (forall (E : env) (url cid : string) (maxc : Z) (fuel : nat),
     Forall (fun ev => (current_load (snd ev) <= 1)%Z /\
                       forall hdr payload,
                         fst ev = Post (poll_url (snd ev)) hdr payload ->
                         current_load (snd ev) = 0%Z)
            (trace (start E fuel (boot (init url cid maxc)))))
  /\
  let r := Sample.session
             [Sample.registered; Sample.assigned Sample.streaming_request]
             5 2 in
  let report t :=
    ("http://dispatcher/api/browser/response.php", Some (JStr t)) in
  let poll := ("http://dispatcher/api/browser/poll.php", @None json) in
  posted (trace r) =
    [ ("http://dispatcher/api/browser/register.php", None); poll;
      report "chunk"; report "chunk"; report "chunk"; report "chunk";
      report "chunk"; report "chunk"; report "chunk"; report "chunk";
      report "complete"; poll ].
Proof.
  split; [exact polls_at_load_zero |].
  vm_compute. reflexivity.
Qed.




(** ** The reports of a request *)



Lemma reports_Forall (T : json -> Prop) (tr : list event) :
  Forall (only_reports T) tr -> Forall T (reports tr).
Proof.
  induction 1 as [| [a c] tr Hev _ IH]; simpl; [constructor |].
  destruct a; try exact IH.
  constructor; [exact (Hev url session_header payload eq_refl) | exact IH].
Qed.

Lemma send_response_only (T : json -> Prop) (E : env) (response_data : json) :
  T response_data ->
  keeps (fun _ => True) (only_reports T) (send_response E response_data).
Proof.
  intros HT. unfold send_response.
  assert (Hlog : forall lvl msg,
             keeps (fun _ : client => True) (only_reports T) (log lvl msg)).
  { intros lvl msg. apply keeps_emit. intros c _ url hdr payload H.
    discriminate H. }
  apply keeps_get_bind. intros c.
  destruct (negb (truthy (session_id c))); [apply Hlog |].
  apply keeps_try_except; [| intros e; apply Hlog].
  apply hoare_post_bind; [| | auto].
  - intros c' _ url hdr payload H. simpl in H. injection H as _ _ <-.
    exact HT.
  - intros resp n _.
    destruct (negb (status resp =? 200)%Z); [apply Hlog | apply keeps_ret].
Qed.

(** The simulated executor sends chunk reports and nothing else. *)
Lemma simulate_browser_processing_only_chunks (E : env) (request_info : json)
    (m : machine) :
  Forall (fun payload => has_type "chunk" payload = true)
         (reports (trace (simulate_browser_processing E request_info m))).
Proof.
  apply reports_Forall.
  assert (Hemit : forall a, (forall url hdr payload, a <> Post url hdr payload) ->
             keeps (fun _ : client => True)
                   (only_reports (fun payload => has_type "chunk" payload = true))
                   (emit a)).
  { intros a Ha. apply keeps_emit. intros c _ url hdr payload H.
    exfalso. exact (Ha url hdr payload H). }
  assert (Hsim : keeps (fun _ : client => True)
                   (only_reports (fun payload => has_type "chunk" payload = true))
                   (simulate_browser_processing E request_info)).
  { unfold simulate_browser_processing.
    apply keeps_bind; [apply keeps_subscript |]. intros model.
    apply keeps_bind; [apply keeps_subscript |]. intros messages.
    apply keeps_bind; [apply keeps_get_or |]. intros is_streaming.
    apply keeps_bind; [apply Hemit; discriminate |]. intros _.
    destruct (truthy is_streaming); [| apply Hemit; discriminate].
    unfold stream_chunks. apply keeps_for_enumerate. intros i chunk.
    apply keeps_bind; [apply keeps_subscript |]. intros request_id.
    apply keeps_bind; [| intros _; apply Hemit; discriminate].
    apply send_response_only. reflexivity. }
  exact (proj2 (Hsim m I)).
Qed.

Lemma filter_other_type (t : string) (sent : list json) :
  String.eqb t "chunk" = false ->
  Forall (fun payload => has_type "chunk" payload = true) sent ->
  filter (has_type t) sent = [].
Proof.
  intros Ht. induction 1 as [| payload sent Hp _ IH]; simpl; [reflexivity |].
  rewrite IH.
  assert (Hno : has_type t payload = false); [| rewrite Hno; reflexivity].
  unfold has_type in *.
  destruct (report_type payload) as [[| | | t' | |] |]; try discriminate Hp.
  apply String.eqb_eq in Hp. subst t'. exact Ht.
Qed.



(** * Further properties *)

(** ** The base URL *)

Lemma rstrip_slash_splits (s : string) :
  exists n, s = rstrip_slash s ++ slashes n.
Proof.
  induction s as [| a rest IH]; [exists 0%nat; reflexivity |].
  destruct IH as [n IH]. simpl rstrip_slash.
  destruct (rstrip_slash rest) as [| b kept] eqn:Hrest.
  - simpl in IH. destruct (Ascii.eqb_spec a "/"%char) as [-> | _].
    + exists (S n). simpl. rewrite <- IH. reflexivity.
    + exists n. simpl. rewrite <- IH. reflexivity.
  - exists n. simpl. simpl in IH. rewrite <- IH. reflexivity.
Qed.

Lemma append_one_not_empty (t : string) (a : ascii) :
  EmptyString <> t ++ String a EmptyString.
Proof. destruct t; discriminate. Qed.

Lemma rstrip_slash_no_trailing_slash (s : string) :
  forall t, rstrip_slash s <> t ++ "/".
Proof.
  induction s as [| a rest IH]; intros t; simpl rstrip_slash.
  - apply append_one_not_empty.
  - destruct (rstrip_slash rest) as [| b kept] eqn:Hrest.
    + destruct (Ascii.eqb_spec a "/"%char) as [-> | Ha].
      * apply append_one_not_empty.
      * destruct t as [| c t']; simpl; intros H.
        -- injection H as H1. exact (Ha H1).
        -- injection H as _ H2. exact (append_one_not_empty t' _ H2).
    + destruct t as [| c t']; simpl; intros H.
      * discriminate H.
      * injection H as _ H2. exact (IH t' H2).
Qed.

Lemma rstrip_slash_fixes (s : string) :
  (forall t, s <> t ++ "/") -> rstrip_slash s = s.
Proof.
  induction s as [| a rest IH]; intros Hs; [reflexivity |].
  simpl rstrip_slash.
  destruct rest as [| b rest'].
  - simpl. destruct (Ascii.eqb_spec a "/"%char) as [-> | _]; [| reflexivity].
    exfalso. exact (Hs EmptyString eq_refl).
  - rewrite IH; [reflexivity |].
    intros t Ht. apply (Hs (String a t)). simpl. rewrite <- Ht. reflexivity.
Qed.

Lemma length_append (a b : string) :
  String.length (a ++ b) = (String.length a + String.length b)%nat.
Proof.
  induction a as [| x a IH]; simpl; [reflexivity | rewrite IH; reflexivity].
Qed.

Lemma append_assoc (a b c : string) : (a ++ b) ++ c = a ++ (b ++ c).
Proof.
  induction a as [| x a IH]; simpl; [reflexivity | rewrite IH; reflexivity].
Qed.

Lemma append_cancel_r (a b c : string) : a ++ c = b ++ c -> a = b.
Proof.
  revert b. induction a as [| x a IH]; intros b Hab.
  - destruct b as [| y b]; [reflexivity |]. exfalso.
    assert (Hlen : String.length c = String.length (String y b ++ c))
      by (rewrite <- Hab; reflexivity).
    simpl in Hlen. rewrite length_append in Hlen. lia.
  - destruct b as [| y b].
    + exfalso.
      assert (Hlen : String.length (String x a ++ c) = String.length c)
        by (rewrite Hab; reflexivity).
      simpl in Hlen. rewrite length_append in Hlen. lia.
    + simpl in Hab. injection Hab as -> Hab. f_equal. exact (IH b Hab).
Qed.

(** X1.  [__init__] stores the base URL without its trailing slashes: the
    URL given is the stored one followed by slashes only, the stored one
    does not end with a slash, and stripping it again changes nothing.
    So every endpoint is the stored base followed by [/api/browser/...]
    with a single slash at the joint. *)
Theorem base_url_is_stored_without_trailing_slashes
    (url cid : string) (maxc : Z) :
  let base := api_base_url (init url cid maxc) in
  (exists n, url = base ++ slashes n) /\
  (forall t, base <> t ++ "/") /\
  api_base_url (init base cid maxc) = base /\
  (forall t, poll_url (init url cid maxc) <> t ++ "//api/browser/poll.php").
Proof.
  intros base. unfold base. simpl api_base_url.
  split; [apply rstrip_slash_splits |].
  split; [apply rstrip_slash_no_trailing_slash |].
  split; [apply rstrip_slash_fixes, rstrip_slash_no_trailing_slash |].
  intros t H. unfold poll_url in H. simpl api_base_url in H.
  apply (rstrip_slash_no_trailing_slash url t).
  apply (append_cancel_r _ _ "/api/browser/poll.php").
  rewrite H, append_assoc. reflexivity.
Qed.

(** ** Registration *)

Lemma runs_raise {A} (e : exn) (m : machine) :
  runs (raise (A := A) e) m (Raise e) m [].
Proof. reflexivity. Qed.

Lemma runs_try_except_passed {A} (p : M A) (h : exn -> M A) (m m1 : machine)
    (e : exn) (tr : list event) :
  runs p m (Raise e) m1 tr ->
  is_Exception e = false ->
  runs (try_except p h) m (Raise e) m1 tr.
Proof.
  unfold runs, try_except. intros H1 He. rewrite H1.
  cbn [result final trace]. rewrite He. reflexivity.
Qed.

(** The run of [register], read off the answer to its POST. *)
Lemma register_run (E : env) (m : machine) :
  let outcome := registration_of (http E (posts m)) in
  runs (register E) m
    (match outcome with Ok _ => Ok tt | Raise e => Raise e end)
    (mkMachine
       (match outcome with
        | Ok sid => set_session_id sid (self m)
        | Raise _ => self m
        end) (S (posts m)) (ticks m))
    ((Post (register_url (self m)) None (registration_data E (self m)), self m)
     :: match outcome with
        | Ok sid =>
            [(Log INFO (RegisteredSuccessfully sid),
              set_session_id sid (self m))]
        | Raise e =>
            if is_Exception e
            then [(Log ERROR (FailedToRegister e), self m)]
            else []
        end).
Proof.
  assert (Hfail : forall e tr,
    runs (resp <- session_post E (register_url (self m)) None
                    (registration_data E (self m)) ;;
          if (status resp =? 200)%Z then
            data <- response_json resp ;;
            sid <- subscript data "session_id" ;;
            modify_self (set_session_id sid) ;;
            log INFO (RegisteredSuccessfully sid)
          else raise (RegistrationFailed (status resp) (text resp)))
         m (Raise e) (mkMachine (self m) (S (posts m)) (ticks m)) tr ->
    runs (register E) m (Raise e) (mkMachine (self m) (S (posts m)) (ticks m))
         (tr ++ if is_Exception e
                then [(Log ERROR (FailedToRegister e), self m)] else [])).
  { intros e tr Hbody. unfold register.
    destruct (is_Exception e) eqn:He.
    - eapply runs_eq.
      + eapply runs_bind; [apply runs_get_self |]. cbv zeta.
        eapply runs_try_except_caught; [exact Hbody | exact He |].
        eapply runs_bind; [apply runs_emit | apply runs_raise].
      + reflexivity.
      + reflexivity.
    - eapply runs_eq.
      + eapply runs_bind; [apply runs_get_self |]. cbv zeta.
        eapply runs_try_except_passed; [exact Hbody | exact He].
      + reflexivity.
      + simpl. rewrite app_nil_r. reflexivity. }
  intros outcome. unfold outcome, registration_of.
  destruct (http E (posts m)) as [e | st txt body] eqn:Hn.
  - apply (Hfail e [_]). apply runs_bind_raise, runs_post_raise. exact Hn.
  - destruct (st =? 200)%Z eqn:Hst.
    + destruct body as [data |].
      * destruct data as [| | | | | fields];
          try (apply (Hfail TypeError [_]); eapply runs_eq;
               [ eapply runs_bind; [apply runs_post_reply; exact Hn |];
                 cbn [status]; rewrite Hst;
                 eapply runs_bind; [apply runs_ret |];
                 apply runs_bind_raise, runs_raise
               | reflexivity | reflexivity ]).
        destruct (assoc "session_id" fields) as [sid |] eqn:Hsid.
        -- unfold register. eapply runs_eq.
           ++ eapply runs_bind; [apply runs_get_self |]. cbv zeta.
              apply runs_try_except_ok.
              eapply runs_bind; [apply runs_post_reply; exact Hn |].
              cbn [status]. rewrite Hst.
              eapply runs_bind; [apply runs_ret |].
              eapply runs_bind;
                [unfold subscript; rewrite Hsid; apply runs_ret |].
              eapply runs_bind; [apply runs_modify | apply runs_emit].
           ++ reflexivity.
           ++ reflexivity.
        -- apply (Hfail (KeyError "session_id") [_]). eapply runs_eq.
           ++ eapply runs_bind; [apply runs_post_reply; exact Hn |].
              cbn [status]. rewrite Hst.
              eapply runs_bind; [apply runs_ret |].
              apply runs_bind_raise.
              unfold subscript. rewrite Hsid. apply runs_raise.
           ++ reflexivity.
           ++ reflexivity.
      * apply (Hfail JSONDecodeError [_]). eapply runs_eq.
        -- eapply runs_bind; [apply runs_post_reply; exact Hn |].
           cbn [status]. rewrite Hst.
           apply runs_bind_raise, runs_raise.
        -- reflexivity.
        -- reflexivity.
    + apply (Hfail (RegistrationFailed st txt) [_]). eapply runs_eq.
      * eapply runs_bind; [apply runs_post_reply; exact Hn |].
        cbn [status text]. rewrite Hst. apply runs_raise.
      * reflexivity.
      * reflexivity.
Qed.


(** X3.  A failed registration is fatal for [start]: the exception that
    [register] raises is the outcome of [start], which has made the one
    POST of the registration and nothing else, has not set [running] and
    has sent no poll. *)
Theorem failed_registration_aborts_start (E : env) (m : machine) (e : exn)
    (fuel : nat) :
  result (register E m) = Raise e ->
  let r := start E fuel m in
  result r = Raise e /\
  self (final r) = self m /\
  posted (trace r) = [(register_url (self m), None)] /\
  sleeps (trace r) = [].
Proof.
  intros Hreg r.
  pose proof (register_run E m) as Hrun. cbv zeta in Hrun.
  assert (Hout : registration_of (http E (posts m)) = Raise e).
  { unfold runs in Hrun. rewrite Hrun in Hreg. cbn [result] in Hreg.
    destruct (registration_of (http E (posts m))); [discriminate Hreg |].
    injection Hreg as ->. reflexivity. }
  rewrite Hout in Hrun.
  assert (Hstart : runs (start E fuel) m (Raise e)
            (mkMachine (self m) (S (posts m)) (ticks m))
            ((Log INFO (StartingClient (client_id (self m))), self m)
             :: (Post (register_url (self m)) None
                      (registration_data E (self m)), self m)
             :: if is_Exception e
                then [(Log ERROR (FailedToRegister e), self m)] else [])).
  { unfold start. eapply runs_eq.
    - eapply runs_bind; [apply runs_get_self |].
      eapply runs_bind; [apply runs_emit |].
      apply runs_bind_raise. exact Hrun.
    - reflexivity.
    - reflexivity. }
  unfold runs in Hstart. unfold r. rewrite Hstart.
  cbn [result final trace self].
  repeat split; destruct (is_Exception e); reflexivity.
Qed.

Lemma failed_registration_aborts_start_witness :
  let W := Sample.world [Scenario.refused] in
  let m := boot (init "http://dispatcher/" "worker-1" 5) in
  result (register W m) = Raise (RegistrationFailed 503 "busy") /\
  result (start W 3 m) = Raise (RegistrationFailed 503 "busy") /\
  running (self (final (start W 3 m))) = false /\
  posted (trace (start W 3 m)) =
    [("http://dispatcher/api/browser/register.php", None)].
Proof.
  intros W m. split; [reflexivity |].
  destruct (failed_registration_aborts_start W m
              (RegistrationFailed 503 "busy") 3 eq_refl)
    as (Hres & Hself & Hposted & _).
  split; [exact Hres |]. split; [rewrite Hself; reflexivity | exact Hposted].
Defined.

(** ** A worker without a session id *)

Lemma poll_for_requests_unregistered (E : env) (m : machine) :
  truthy (session_id (self m)) = false ->
  runs (poll_for_requests E) m (Ok tt) m
       [(Log WARNING NoSessionSkippingPoll, self m)].
Proof.
  intros Hs. unfold poll_for_requests. eapply runs_eq.
  - eapply runs_bind; [apply runs_get_self |].
    rewrite Hs. cbn [negb]. apply runs_emit.
  - reflexivity.
  - reflexivity.
Qed.

Lemma polling_turns_unregistered (E : env) (fuel : nat) :
  forall m,
    truthy (session_id (self m)) = false ->
    running (self m) = true ->
    let r := polling_turns E fuel m in
    result r = Ok tt /\
    posts (final r) = posts m /\
    reports (trace r) = [] /\
    session_id (self (final r)) = session_id (self m) /\
    List.length (sleeps (trace r)) = fuel.
Proof.
  induction fuel as [| fuel IH]; intros m Hs Hrun r.
  - repeat split.
  - set (c1 := update_poll_interval (self m)).
    set (m1 := mkMachine c1 (posts m) (ticks m)).
    assert (Hs1 : truthy (session_id (self m1)) = false)
      by (unfold m1, c1; simpl; rewrite update_poll_interval_session;
          exact Hs).
    assert (Hrun1 : running (self m1) = true)
      by (unfold m1, c1; simpl; rewrite update_poll_interval_running;
          exact Hrun).
    pose proof (polling_iteration_around E m m1 _
                  (poll_for_requests_unregistered E m1 Hs1)) as Hit.
    pose proof (polling_turns_step E fuel m m1 _ Hrun Hit) as Hstep.
    destruct (IH m1 Hs1 Hrun1) as (Hres & Hposts & Hrep & Hsid & Hlen).
    unfold runs in Hstep. unfold r. rewrite Hstep.
    cbn [result final trace]. rewrite Hres, Hposts, Hsid.
    split; [reflexivity |]. split; [reflexivity |].
    split; [simpl; exact Hrep |].
    split; [unfold m1, c1; simpl; apply update_poll_interval_session |].
    simpl. rewrite Hlen. reflexivity.
Qed.

(** X4.  A worker whose session id is empty or absent never contacts the
    dispatcher from its polling loop: every turn only logs the warning
    and pauses, no POST is made, and the session id stays what it was
    (there is no second registration). *)
Theorem worker_without_session_never_polls (E : env) (m : machine)
    (fuel : nat) :
  truthy (session_id (self m)) = false ->
  running (self m) = true ->
  let r := polling_loop E fuel m in
  result r = Ok tt /\
  posts (final r) = posts m /\
  reports (trace r) = [] /\
  session_id (self (final r)) = session_id (self m) /\
  List.length (sleeps (trace r)) = fuel.
Proof.
  intros Hs Hrun r.
  destruct (polling_turns_unregistered E fuel m Hs Hrun)
    as (Hres & Hposts & Hrep & Hsid & Hlen).
  assert (Hloop : runs (polling_loop E fuel) m
            (result (polling_turns E fuel m)) (final (polling_turns E fuel m))
            ((Log INFO StartingPollingLoop, self m)
             :: trace (polling_turns E fuel m))).
  { unfold polling_loop. eapply runs_eq.
    - eapply runs_bind; [apply runs_emit | apply runs_run].
    - reflexivity.
    - reflexivity. }
  unfold runs in Hloop. unfold r. rewrite Hloop. cbn [result final trace].
  repeat split; assumption.
Qed.

(** A dispatcher that registers the worker under an empty session id. *)
Lemma worker_without_session_never_polls_witness :
  let W := Sample.world [Scenario.registered_without_id] in
  let m := Scenario.unregistered_worker in
  truthy (session_id (self m)) = false /\
  running (self m) = true /\
  self (final (register W (boot (init "http://dispatcher/" "worker-1" 5))))
    = set_session_id (JStr EmptyString)
        (init "http://dispatcher/" "worker-1" 5) /\
  posts (final (polling_loop W 4 m)) = 1%nat /\
  reports (trace (polling_loop W 4 m)) = [] /\
  List.length (sleeps (trace (polling_loop W 4 m))) = 4%nat.
Proof.
  intros W m.
  do 3 (split; [reflexivity |]).
  destruct (worker_without_session_never_polls W m 4 eq_refl eq_refl)
    as (_ & Hposts & Hrep & _ & Hlen).
  split; [exact Hposts |]. split; [exact Hrep | exact Hlen].
Defined.

(** ** The answers to a poll *)

(** [poll_for_requests] around the handling of a response. *)
Lemma poll_for_requests_answered (E : env) (m m' : machine) (st : Z)
    (txt : string) (body : option json) (tr : list event) :
  truthy (session_id (self m)) = true ->
  http E (posts m) = NetReply st txt body ->
  runs (poll_answered E (mkResponse st txt body))
       (mkMachine (self m) (S (posts m)) (S (ticks m))) (Ok tt) m' tr ->
  runs (poll_for_requests E) m (Ok tt) m'
       ((Post (poll_url (self m)) (Some (session_id (self m)))
              (poll_data (self m) (clock E (ticks m))), self m) :: tr).
Proof.
  intros Hs Hn Hk. unfold poll_for_requests. eapply runs_eq.
  - eapply runs_bind; [apply runs_get_self |].
    rewrite Hs. cbn [negb].
    eapply runs_bind; [apply runs_time |].
    apply runs_try_except_ok.
    eapply runs_bind; [apply runs_post_reply; exact Hn | exact Hk].
  - reflexivity.
  - reflexivity.
Qed.

Lemma poll_for_requests_complained (E : env) (m m' : machine) (st : Z)
    (txt : string) (body : option json) (e : exn) (tr : list event) :
  truthy (session_id (self m)) = true ->
  http E (posts m) = NetReply st txt body ->
  runs (poll_answered E (mkResponse st txt body))
       (mkMachine (self m) (S (posts m)) (S (ticks m))) (Raise e) m' tr ->
  is_Exception e = true ->
  runs (poll_for_requests E) m (Ok tt) m'
       ((Post (poll_url (self m)) (Some (session_id (self m)))
              (poll_data (self m) (clock E (ticks m))), self m)
        :: tr ++ [(Log ERROR (PollingError e), self m')]).
Proof.
  intros Hs Hn Hk He. unfold poll_for_requests. eapply runs_eq.
  - eapply runs_bind; [apply runs_get_self |].
    rewrite Hs. cbn [negb].
    eapply runs_bind; [apply runs_time |].
    eapply runs_try_except_caught; [| exact He | apply runs_emit].
    eapply runs_bind; [apply runs_post_reply; exact Hn | exact Hk].
  - reflexivity.
  - reflexivity.
Qed.

Lemma runs_get_or (fields : list (string * json)) (k : string)
    (default : json) (m : machine) :
  runs (get_or (JObj fields) k default) m
       (Ok (match assoc k fields with Some v => v | None => default end))
       m [].
Proof.
  unfold get_or. destruct (assoc k fields); apply runs_ret.
Qed.

Lemma has_no_request (fields : list (string * json)) :
  (forall h, assoc "has_request" fields = Some h -> truthy h = false) ->
  truthy (match assoc "has_request" fields with
          | Some h => h
          | None => JNull
          end) = false.
Proof.
  intros Hh. destruct (assoc "has_request" fields) as [h |];
    [apply Hh; reflexivity | reflexivity].
Qed.

(** X5.  An idle answer that carries no [poll_interval] resets the poll
    interval to the base interval (capped at 30): the pause of that turn
    is the base interval, whatever [update_poll_interval] had computed at
    the start of the turn.  So the back-off and the speed-up of
    [update_poll_interval] last only until the next idle answer. *)
Theorem idle_poll_without_recommendation_resets_the_interval
    (E : env) (m : machine) (txt : string) (fields : list (string * json)) :
  truthy (session_id (self m)) = true ->
  http E (posts m) = NetReply 200 txt (Some (JObj fields)) ->
  (forall h, assoc "has_request" fields = Some h -> truthy h = false) ->
  assoc "poll_interval" fields = None ->
  let c1 := update_poll_interval (self m) in
  let reset := Qmin (base_poll_interval (self m)) 30 in
  let c2 := set_current_poll_interval reset c1 in
  runs (polling_iteration E) m (Ok tt)
       (mkMachine c2 (S (posts m)) (S (ticks m)))
       [ (Post (poll_url c1) (Some (session_id c1))
               (poll_data c1 (clock E (ticks m))), c1);
         (Sleep reset, c2) ].
Proof.
  intros Hs Hn Hh Hv c1 reset c2.
  assert (Hs1 : truthy (session_id c1) = true)
    by (unfold c1; rewrite update_poll_interval_session; exact Hs).
  assert (Hbase : base_poll_interval c1 = base_poll_interval (self m)).
  { unfold c1, update_poll_interval.
    destruct (current_load (self m) >=? max_concurrent (self m))%Z;
      [| destruct (current_load (self m) =? 0)%Z]; reflexivity. }
  apply (polling_iteration_around E m
           (mkMachine c2 (S (posts m)) (S (ticks m)))
           [ (Post (poll_url c1) (Some (session_id c1))
                   (poll_data c1 (clock E (ticks m))), c1) ]).
  apply (poll_for_requests_answered E (mkMachine c1 (posts m) (ticks m)) _
           200 txt (Some (JObj fields)) []); [exact Hs1 | exact Hn |].
  unfold poll_answered. cbn [status json_body response_json].
  change (200 =? 200)%Z with true. cbv iota.
  eapply runs_eq.
  - eapply runs_bind; [apply runs_ret |].
    eapply runs_bind; [apply runs_get_or |].
    rewrite (has_no_request fields Hh).
    eapply runs_bind; [apply runs_get_self |].
    eapply runs_bind; [apply runs_get_or |].
    rewrite Hv.
    eapply runs_bind; [apply runs_ret | apply runs_modify].
  - cbn [self as_number]. rewrite Hbase. reflexivity.
  - reflexivity.
Qed.

Lemma idle_poll_without_recommendation_resets_the_interval_witness :
  let W := Sample.world [Sample.registered; Sample.idle] in
  let m := Sample.registered_worker in
  truthy (session_id (self m)) = true /\
  http W (posts m) =
    NetReply 200 "ok" (Some (JObj [("has_request", JBool false)])) /\
  (forall h, assoc "has_request" [("has_request", JBool false)] = Some h ->
             truthy h = false) /\
  assoc "poll_interval" [("has_request", JBool false)] = None /\
  current_poll_interval (update_poll_interval (self m)) == 4 /\
  sleeps (trace (polling_iteration W m)) = [5].
Proof.
  intros W m.
  assert (Hh : forall h,
             assoc "has_request" [("has_request", JBool false)] = Some h ->
             truthy h = false).
  { intros h H. simpl in H. injection H as <-. reflexivity. }
  do 2 (split; [reflexivity |]). split; [exact Hh |].
  do 2 (split; [reflexivity |]).
  pose proof (idle_poll_without_recommendation_resets_the_interval
                W m "ok" [("has_request", JBool false)]
                eq_refl eq_refl Hh eq_refl) as H.
  unfold runs in H. rewrite H. reflexivity.
Defined.

Lemma poll_for_requests_unusable (E : env) (m : machine) (st : Z)
    (txt : string) (body : option json) (line : level * logmsg) :
  truthy (session_id (self m)) = true ->
  http E (posts m) = NetReply st txt body ->
  complaint st body = Some line ->
  runs (poll_for_requests E) m (Ok tt)
       (mkMachine (self m) (S (posts m)) (S (ticks m)))
       [ (Post (poll_url (self m)) (Some (session_id (self m)))
               (poll_data (self m) (clock E (ticks m))), self m);
         (Log (fst line) (snd line), self m) ].
Proof.
  intros Hs Hn Hc.
  set (m2 := mkMachine (self m) (S (posts m)) (S (ticks m))).
  assert (Hraise : forall e,
    is_Exception e = true ->
    runs (poll_answered E (mkResponse st txt body)) m2 (Raise e) m2 [] ->
    runs (poll_for_requests E) m (Ok tt) m2
      [ (Post (poll_url (self m)) (Some (session_id (self m)))
              (poll_data (self m) (clock E (ticks m))), self m);
        (Log ERROR (PollingError e), self m) ]).
  { intros e He Hk.
    exact (poll_for_requests_complained E m m2 st txt body e [] Hs Hn Hk He). }
  unfold complaint in Hc. unfold poll_answered in Hraise.
  cbn [status json_body response_json] in Hraise.
  destruct (st =? 200)%Z eqn:Hst.
  - destruct body as [data |].
    + destruct data as [| b | q | s | items | fields];
        try (injection Hc as <-; apply Hraise; [reflexivity |];
             eapply runs_eq;
             [ eapply runs_bind; [apply runs_ret |];
               apply runs_bind_raise, runs_raise
             | reflexivity | reflexivity ]).
      destruct (truthy (match assoc "has_request" fields with
                        | Some h => h
                        | None => JNull
                        end)) eqn:Hhas; [discriminate Hc |].
      destruct (assoc "poll_interval" fields) as [v |] eqn:Hv;
        [| discriminate Hc].
      destruct (as_number v) as [q |] eqn:Hq; [discriminate Hc |].
      injection Hc as <-. apply Hraise; [reflexivity |].
      eapply runs_eq.
      * eapply runs_bind; [apply runs_ret |].
        eapply runs_bind; [apply runs_get_or |].
        rewrite Hhas.
        eapply runs_bind; [apply runs_get_self |].
        eapply runs_bind; [apply runs_get_or |].
        rewrite Hv. apply runs_bind_raise.
        unfold min_30. rewrite Hq. apply runs_raise.
      * reflexivity.
      * reflexivity.
    + injection Hc as <-. apply Hraise; [reflexivity |].
      apply runs_bind_raise, runs_raise.
  - injection Hc as <-.
    apply (poll_for_requests_answered E m m2 st txt body
             [(Log WARNING (PollFailed st), self m)] Hs Hn).
    unfold poll_answered. cbn [status]. rewrite Hst.
    exact (runs_emit (Log WARNING (PollFailed st)) m2).
Qed.

(** X6.  A poll answer that carries neither an assignment nor a usable
    idle outcome (a status other than 200, a body that is not JSON or not
    an object, a [poll_interval] that is not a number) is logged and
    skipped: the turn makes its one POST, writes one log line, leaves the
    worker as [update_poll_interval] made it and pauses for the locally
    computed interval. *)
Theorem unusable_poll_answer_is_logged_and_skipped (E : env) (m : machine)
    (st : Z) (txt : string) (body : option json) (line : level * logmsg) :
  truthy (session_id (self m)) = true ->
  http E (posts m) = NetReply st txt body ->
  complaint st body = Some line ->
  let c1 := update_poll_interval (self m) in
  runs (polling_iteration E) m (Ok tt)
       (mkMachine c1 (S (posts m)) (S (ticks m)))
       [ (Post (poll_url c1) (Some (session_id c1))
               (poll_data c1 (clock E (ticks m))), c1);
         (Log (fst line) (snd line), c1);
         (Sleep (current_poll_interval c1), c1) ].
Proof.
  intros Hs Hn Hc c1.
  assert (Hs1 : truthy (session_id c1) = true)
    by (unfold c1; rewrite update_poll_interval_session; exact Hs).
  apply (polling_iteration_around E m
           (mkMachine c1 (S (posts m)) (S (ticks m)))
           [ (Post (poll_url c1) (Some (session_id c1))
                   (poll_data c1 (clock E (ticks m))), c1);
             (Log (fst line) (snd line), c1) ]).
  exact (poll_for_requests_unusable E (mkMachine c1 (posts m) (ticks m))
           st txt body line Hs1 Hn Hc).
Qed.

(** An idle answer whose [poll_interval] is a string. *)
Lemma unusable_poll_answer_is_logged_and_skipped_witness :
  let body := JObj [("has_request", JBool false);
                    ("poll_interval", JStr "soon")] in
  let W := Sample.world [Sample.registered; Sample.ok body] in
  let m := Sample.registered_worker in
  truthy (session_id (self m)) = true /\
  http W (posts m) = NetReply 200 "ok" (Some body) /\
  complaint 200 (Some body) = Some (ERROR, PollingError TypeError) /\
  acts (trace (polling_iteration W m)) =
    [ Post "http://dispatcher/api/browser/poll.php" (Some (JStr "sess-1"))
           (poll_data (update_poll_interval (self m)) 0);
      Log ERROR (PollingError TypeError);
      Sleep (5 * (4 # 5)) ].
Proof.
  intros body W m.
  do 3 (split; [reflexivity |]).
  pose proof (unusable_poll_answer_is_logged_and_skipped W m 200 "ok"
                (Some body) (ERROR, PollingError TypeError)
                eq_refl eq_refl eq_refl) as H.
  unfold runs in H. rewrite H. reflexivity.
Defined.

(** X7.  An assignment that cannot be processed (the answer has a true
    [has_request] but no [request], or a [request] that is not an object
    or has no [request_id]) is dropped: the exception is logged as a
    polling error, no report is sent to the dispatcher, and the load and
    the counters are untouched. *)
Theorem malformed_assignment_is_dropped (E : env) (m : machine)
    (txt : string) (fields : list (string * json)) (h : json) (e : exn) :
  truthy (session_id (self m)) = true ->
  http E (posts m) = NetReply 200 txt (Some (JObj fields)) ->
  assoc "has_request" fields = Some h ->
  truthy h = true ->
  request_fault fields = Some e ->
  let c1 := update_poll_interval (self m) in
  runs (polling_iteration E) m (Ok tt)
       (mkMachine c1 (S (posts m)) (S (ticks m)))
       [ (Post (poll_url c1) (Some (session_id c1))
               (poll_data c1 (clock E (ticks m))), c1);
         (Log ERROR (PollingError e), c1);
         (Sleep (current_poll_interval c1), c1) ].
Proof.
  intros Hs Hn Hh Ht Hf c1.
  assert (Hs1 : truthy (session_id c1) = true)
    by (unfold c1; rewrite update_poll_interval_session; exact Hs).
  set (m1 := mkMachine c1 (posts m) (ticks m)).
  set (m2 := mkMachine c1 (S (posts m)) (S (ticks m))).
  assert (He : is_Exception e = true).
  { unfold request_fault in Hf.
    destruct (assoc "request" fields) as [[| | | | | rf] |];
      try (injection Hf as <-; reflexivity).
    destruct (assoc "request_id" rf); [discriminate Hf |].
    injection Hf as <-. reflexivity. }
  apply (polling_iteration_around E m m2
           [ (Post (poll_url c1) (Some (session_id c1))
                   (poll_data c1 (clock E (ticks m))), c1);
             (Log ERROR (PollingError e), c1) ]).
  apply (poll_for_requests_complained E m1 m2 200 txt (Some (JObj fields))
           e [] Hs1 Hn); [| exact He].
  unfold poll_answered. cbn [status json_body response_json].
  change (200 =? 200)%Z with true. cbv iota.
  assert (Hreq : runs (request_info <- subscript (JObj fields) "request" ;;
                       process_request E request_info) m2 (Raise e) m2 []).
  { unfold request_fault in Hf. unfold subscript at 1.
    destruct (assoc "request" fields) as [request_info |].
    - eapply runs_eq; [eapply runs_bind; [apply runs_ret |]
                      | reflexivity | reflexivity].
      unfold process_request. apply runs_bind_raise. unfold subscript.
      destruct request_info as [| | | | | rf];
        try (injection Hf as <-; apply runs_raise).
      destruct (assoc "request_id" rf); [discriminate Hf |].
      injection Hf as <-. apply runs_raise.
    - injection Hf as <-. apply runs_bind_raise, runs_raise. }
  eapply runs_eq.
  - eapply runs_bind; [apply runs_ret |].
    eapply runs_bind; [apply runs_get_or |].
    rewrite Hh, Ht. exact Hreq.
  - reflexivity.
  - reflexivity.
Qed.

(** An assignment whose request has no [request_id]. *)
Lemma malformed_assignment_is_dropped_witness :
  let fields := [("has_request", JBool true);
                 ("request", Scenario.anonymous_request)] in
  let W := Sample.world [Sample.registered;
                         Sample.assigned Scenario.anonymous_request] in
  let m := Sample.registered_worker in
  truthy (session_id (self m)) = true /\
  http W (posts m) = NetReply 200 "ok" (Some (JObj fields)) /\
  assoc "has_request" fields = Some (JBool true) /\
  truthy (JBool true) = true /\
  request_fault fields = Some (KeyError "request_id") /\
  reports (trace (polling_iteration W m)) =
    [poll_data (update_poll_interval (self m)) 0] /\
  total_requests (self (final (polling_iteration W m))) = 0%Z /\
  current_load (self (final (polling_iteration W m))) = 0%Z.
Proof.
  intros fields W m.
  do 5 (split; [reflexivity |]).
  pose proof (malformed_assignment_is_dropped W m "ok" fields (JBool true)
                (KeyError "request_id") eq_refl eq_refl eq_refl eq_refl
                eq_refl) as H.
  unfold runs in H. rewrite H. repeat split.
Defined.

(** ** The delivery of a report *)

(** The run of [send_response] of a worker with a session, read off the
    answer to its POST. *)
Lemma send_response_run (E : env) (m : machine) (response_data : json) :
  truthy (session_id (self m)) = true ->
  let reply := http E (posts m) in
  send_response E response_data m =
    mkRun (report_outcome reply)
          (mkMachine (self m) (S (posts m)) (ticks m))
          ((Post (response_url (self m)) (Some (session_id (self m)))
                 response_data, self m)
           :: map (fun line => (Log (fst line) (snd line), self m))
                  (report_log reply)).
Proof.
  intros Hs reply. unfold reply, report_outcome, report_log.
  change (runs (send_response E response_data) m
            (match http E (posts m) with
             | NetRaise e => if is_Exception e then Ok tt else Raise e
             | NetReply _ _ _ => Ok tt
             end)
            (mkMachine (self m) (S (posts m)) (ticks m))
            ((Post (response_url (self m)) (Some (session_id (self m)))
                   response_data, self m)
             :: map (fun line => (Log (fst line) (snd line), self m))
                    (match http E (posts m) with
                     | NetRaise e =>
                         if is_Exception e
                         then [(ERROR, ErrorSendingResponse e)] else []
                     | NetReply st _ _ =>
                         if (st =? 200)%Z then []
                         else [(WARNING, FailedToSendResponse st)]
                     end))).
  unfold send_response.
  destruct (http E (posts m)) as [e | st txt body] eqn:Hn.
  - destruct (is_Exception e) eqn:He.
    + eapply runs_eq.
      * eapply runs_bind; [apply runs_get_self |].
        rewrite Hs. cbn [negb].
        eapply runs_try_except_caught; [| exact He | apply runs_emit].
        apply runs_bind_raise, runs_post_raise. exact Hn.
      * reflexivity.
      * reflexivity.
    + eapply runs_eq.
      * eapply runs_bind; [apply runs_get_self |].
        rewrite Hs. cbn [negb].
        eapply runs_try_except_passed; [| exact He].
        apply runs_bind_raise, runs_post_raise. exact Hn.
      * reflexivity.
      * reflexivity.
  - destruct (st =? 200)%Z eqn:Hst.
    + eapply runs_eq.
      * eapply runs_bind; [apply runs_get_self |].
        rewrite Hs. cbn [negb].
        apply runs_try_except_ok.
        eapply runs_bind; [apply runs_post_reply; exact Hn |].
        cbn [status]. rewrite Hst. apply runs_ret.
      * reflexivity.
      * reflexivity.
    + eapply runs_eq.
      * eapply runs_bind; [apply runs_get_self |].
        rewrite Hs. cbn [negb].
        apply runs_try_except_ok.
        eapply runs_bind; [apply runs_post_reply; exact Hn |].
        cbn [status]. rewrite Hst. apply runs_emit.
      * reflexivity.
      * reflexivity.
Qed.

(** X8.  With a session, a report call makes exactly one POST, to the
    response endpoint and under the session header, and never retries.
    A report that is not acknowledged (a status other than 200, or an
    [Exception] of the transport) is logged and dropped: the call returns
    normally; only a cancellation comes out of it.  The worker's fields
    are untouched in every case. *)
Theorem report_is_sent_once_and_failures_are_dropped (E : env) (m : machine)
    (response_data : json) :
  truthy (session_id (self m)) = true ->
  let reply := http E (posts m) in
  send_response E response_data m =
    mkRun (report_outcome reply)
          (mkMachine (self m) (S (posts m)) (ticks m))
          ((Post (response_url (self m)) (Some (session_id (self m)))
                 response_data, self m)
           :: map (fun line => (Log (fst line) (snd line), self m))
                  (report_log reply)).
Proof.
  intros Hs reply. exact (send_response_run E m response_data Hs).
Qed.

(** A report answered by a server error, and one that times out. *)
Lemma report_is_sent_once_and_failures_are_dropped_witness :
  let m := Sample.registered_worker in
  let data := completion_data (JStr "req-1") "Simulated response" 1000 in
  let url := "http://dispatcher/api/browser/response.php" in
  truthy (session_id (self m)) = true /\
  send_response
    (Sample.world [Sample.registered; NetReply 500 "oops" None]) data m =
    mkRun (Ok tt) (mkMachine (self m) 2 0)
      [ (Post url (Some (JStr "sess-1")) data, self m);
        (Log WARNING (FailedToSendResponse 500), self m) ] /\
  send_response
    (Sample.world [Sample.registered; NetRaise (TransportError "timed out")])
    data m =
    mkRun (Ok tt) (mkMachine (self m) 2 0)
      [ (Post url (Some (JStr "sess-1")) data, self m);
        (Log ERROR (ErrorSendingResponse (TransportError "timed out")),
         self m) ].
Proof.
  intros m data url. split; [reflexivity |]. split.
  - exact (report_is_sent_once_and_failures_are_dropped
             (Sample.world [Sample.registered; NetReply 500 "oops" None])
             m data eq_refl).
  - exact (report_is_sent_once_and_failures_are_dropped
             (Sample.world [Sample.registered;
                            NetRaise (TransportError "timed out")])
             m data eq_refl).
Defined.

(** ** No [Exception] leaves the processing of a request *)

Lemma tame_ret {A} (a : A) : tame (ret a).
Proof. intros m e H. discriminate H. Qed.

Lemma tame_emit (a : action) : tame (emit a).
Proof. intros m e H. discriminate H. Qed.

Lemma tame_modify (f : client -> client) : tame (modify_self f).
Proof. intros m e H. discriminate H. Qed.

Lemma tame_bind {A B} (p : M A) (k : A -> M B) :
  tame p -> (forall a, tame (k a)) -> tame (bind p k).
Proof.
  intros Hp Hk m e. unfold bind.
  destruct (result (p m)) as [a | e0] eqn:Hr; cbn [result].
  - apply Hk.
  - intros H. injection H as <-. exact (Hp m e0 Hr).
Qed.

Lemma tame_try_except {A} (p : M A) (h : exn -> M A) :
  (forall e, tame (h e)) -> tame (try_except p h).
Proof.
  intros Hh m e. unfold try_except.
  destruct (result (p m)) as [a | e0] eqn:Hr;
    [rewrite Hr; discriminate |].
  destruct (is_Exception e0) eqn:He0; cbn [result].
  - apply Hh.
  - rewrite Hr. intros H. injection H as <-. exact He0.
Qed.

Lemma tame_try_finally {A} (p : M A) (f : M unit) :
  tame p -> tame f -> tame (try_finally p f).
Proof.
  intros Hp Hf m e. unfold try_finally. cbv zeta.
  destruct (result (f (final (p m)))) as [u | e0] eqn:Hr; cbn [result].
  - apply Hp.
  - intros H. injection H as <-. exact (Hf _ e0 Hr).
Qed.

Lemma tame_send_response (E : env) (response_data : json) :
  tame (send_response E response_data).
Proof.
  unfold send_response. intros m e.
  unfold bind at 1. cbn [get_self result final trace].
  destruct (negb (truthy (session_id (self m)))); [discriminate |].
  revert m e. apply tame_try_except. intros e0. apply tame_emit.
Qed.

Lemma tame_time (E : env) : tame (time_time E).
Proof. intros m e H. discriminate H. Qed.

(** Once it has the request id, [process_request] lets no [Exception]
    out. *)
Lemma process_request_tame (E : env) (fields : list (string * json))
    (request_id : json) :
  assoc "request_id" fields = Some request_id ->
  tame (process_request E (JObj fields)).
Proof.
  intros Hid. unfold process_request, subscript. rewrite Hid.
  apply tame_bind; [apply tame_ret |]. intros rid.
  apply tame_bind; [apply tame_emit |]. intros _.
  apply tame_bind; [apply tame_time |]. intros start_time.
  apply tame_bind; [apply tame_modify |]. intros _.
  apply tame_bind; [apply tame_modify |]. intros _.
  apply tame_try_finally; [| apply tame_modify].
  apply tame_try_except. intros e.
  apply tame_bind; [apply tame_emit |]. intros _.
  apply tame_send_response.
Qed.

(** ** What does not read the clock *)

Lemma clockless_ret {A} (a : A) : clockless (ret a).
Proof. intros m. reflexivity. Qed.

Lemma clockless_raise {A} (e : exn) : clockless (raise (A := A) e).
Proof. intros m. reflexivity. Qed.

Lemma clockless_emit (a : action) : clockless (emit a).
Proof. intros m. reflexivity. Qed.

Lemma clockless_bind {A B} (p : M A) (k : A -> M B) :
  clockless p -> (forall a, clockless (k a)) -> clockless (bind p k).
Proof.
  intros Hp Hk m. unfold bind.
  destruct (result (p m)) as [a | e]; cbn [final].
  - rewrite Hk. apply Hp.
  - apply Hp.
Qed.

Lemma clockless_try_except {A} (p : M A) (h : exn -> M A) :
  clockless p -> (forall e, clockless (h e)) -> clockless (try_except p h).
Proof.
  intros Hp Hh m. unfold try_except.
  destruct (result (p m)) as [a | e]; [apply Hp |].
  destruct (is_Exception e); cbn [final]; [rewrite Hh |]; apply Hp.
Qed.

Lemma clockless_subscript (d : json) (k : string) : clockless (subscript d k).
Proof.
  unfold subscript. destruct d; try apply clockless_raise.
  destruct (assoc k fields); [apply clockless_ret | apply clockless_raise].
Qed.

Lemma clockless_get_or (d : json) (k : string) (default : json) :
  clockless (get_or d k default).
Proof.
  unfold get_or. destruct d; try apply clockless_raise.
  destruct (assoc k fields); apply clockless_ret.
Qed.

Lemma clockless_for_enumerate {B} (body : nat -> B -> M unit) (xs : list B) :
  (forall i x, clockless (body i x)) ->
  forall i, clockless (for_enumerate i xs body).
Proof.
  intros Hb. induction xs as [| x rest IH]; intros i; simpl.
  - apply clockless_ret.
  - apply clockless_bind; [apply Hb | intros _; apply IH].
Qed.

Lemma clockless_send_response (E : env) (response_data : json) :
  clockless (send_response E response_data).
Proof.
  intros m. unfold send_response, bind at 1.
  cbn [get_self result final trace].
  destruct (negb (truthy (session_id (self m)))); [reflexivity |].
  revert m. apply clockless_try_except; [| intros e; apply clockless_emit].
  apply clockless_bind.
  - intros m. unfold session_post.
    destruct (http E (posts m)); reflexivity.
  - intros resp. destruct (negb (status resp =? 200)%Z);
      [apply clockless_emit | apply clockless_ret].
Qed.

Lemma clockless_simulate_browser_processing (E : env) (request_info : json) :
  clockless (simulate_browser_processing E request_info).
Proof.
  unfold simulate_browser_processing.
  apply clockless_bind; [apply clockless_subscript |]. intros model.
  apply clockless_bind; [apply clockless_subscript |]. intros messages.
  apply clockless_bind; [apply clockless_get_or |]. intros is_streaming.
  apply clockless_bind; [apply clockless_emit |]. intros _.
  destruct (truthy is_streaming); [| apply clockless_emit].
  unfold stream_chunks. apply clockless_for_enumerate. intros i chunk.
  apply clockless_bind; [apply clockless_subscript |]. intros request_id.
  apply clockless_bind; [apply clockless_send_response |]. intros _.
  apply clockless_emit.
Qed.

(** ** The counters after a request *)

Lemma runs_try_finally {A} (p : M A) (f : M unit) (m m1 m2 : machine)
    (r : res A) (tr1 tr2 : list event) :
  runs p m r m1 tr1 ->
  runs f m1 (Ok tt) m2 tr2 ->
  runs (try_finally p f) m r m2 (tr1 ++ tr2).
Proof.
  unfold runs, try_finally. intros H1 H2. cbv zeta. rewrite H1.
  cbn [result final trace]. rewrite H2. reflexivity.
Qed.

Lemma quiet_error_handler (E : env) (request_id : json) (e : exn) :
  quiet (log ERROR (FailedToProcessRequest request_id e) ;;
         send_error E request_id (str_exn E e)).
Proof.
  apply quiet_intro. intros c0.
  apply keeps_bind; [apply quiet_elim, quiet_log |]. intros _.
  apply quiet_elim, quiet_send_response.
Qed.

(** The [try ... except] block of [process_request] leaves the worker
    credited with a success when the executor returned, and as it was
    when the executor raised. *)
Lemma attempt_settles (E : env) (fields : list (string * json))
    (request_id : json) (m : machine) :
  exists rX mX trX,
    runs (attempt E (JObj fields) request_id (clock E (ticks m)))
         (begun m) rX mX trX /\
    self mX =
      match result (simulate_browser_processing E (JObj fields) (begun m)) with
      | Ok _ => credited (measured E m) (self (begun m))
      | Raise _ => self (begun m)
      end.
Proof.
  set (b := begun m).
  set (sim := simulate_browser_processing E (JObj fields) b).
  assert (Hq : self (final sim) = self b)
    by exact (proj1 (quiet_simulate_browser_processing E (JObj fields) b)).
  assert (Ht : ticks (final sim) = S (ticks m))
    by exact (clockless_simulate_browser_processing E (JObj fields) b).
  pose proof (runs_run (simulate_browser_processing E (JObj fields)) b)
    as Hsim. fold sim in Hsim.
  destruct (result sim) as [u | e] eqn:Hres.
  - destruct u.
    set (rt := (clock E (ticks (final sim)) - clock E (ticks m)) * 1000).
    set (m4 := mkMachine
                 (set_total_response_time
                    (total_response_time (self (final sim)) + rt)
                    (set_successful_requests
                       (successful_requests (self (final sim)) + 1)
                       (self (final sim))))
                 (posts (final sim)) (S (ticks (final sim)))).
    set (sc := send_completion E request_id "Simulated response" rt m4).
    assert (Hbody : runs
              (simulate_browser_processing E (JObj fields) ;;
               modify_self (fun c =>
                 set_successful_requests (successful_requests c + 1) c) ;;
               now <- time_time E ;;
               let response_time := (now - clock E (ticks m)) * 1000 in
               modify_self (fun c =>
                 set_total_response_time
                   (total_response_time c + response_time) c) ;;
               send_completion E request_id "Simulated response"
                               response_time)
              b (result sc) (final sc) (trace sim ++ trace sc)).
    { eapply runs_eq.
      - eapply runs_bind; [exact Hsim |].
        eapply runs_bind; [apply runs_modify |].
        eapply runs_bind; [apply runs_time |].
        cbv zeta.
        eapply runs_bind; [apply runs_modify |].
        exact (runs_run _ m4).
      - reflexivity.
      - reflexivity. }
    assert (Hself : self (final sc) = credited (measured E m) (self b)).
    { unfold sc, send_completion.
      rewrite (proj1 (quiet_send_response E _ m4)).
      unfold m4, rt, credited, measured. cbn [self].
      rewrite Hq, Ht. reflexivity. }
    destruct (result sc) as [u | e'] eqn:Hsc.
    + exists (Ok u), (final sc), (trace sim ++ trace sc)%list.
      split; [| exact Hself].
      unfold attempt. apply runs_try_except_ok. exact Hbody.
    + exists (Raise e'), (final sc), (trace sim ++ trace sc)%list.
      split; [| exact Hself].
      unfold attempt. apply runs_try_except_passed; [exact Hbody |].
      exact (tame_send_response E _ m4 e' Hsc).
  - destruct (is_Exception e) eqn:He.
    + set (h := log ERROR (FailedToProcessRequest request_id e) ;;
                send_error E request_id (str_exn E e)).
      exists (result (h (final sim))), (final (h (final sim))),
             (trace sim ++ trace (h (final sim)))%list.
      split.
      * unfold attempt.
        eapply runs_try_except_caught; [| exact He | apply runs_run].
        apply runs_bind_raise. exact Hsim.
      * unfold h. rewrite (proj1 (quiet_error_handler E request_id e _)).
        exact Hq.
    + exists (Raise e), (final sim), (trace sim).
      split; [| exact Hq].
      unfold attempt. apply runs_try_except_passed; [| exact He].
      apply runs_bind_raise. exact Hsim.
Qed.

(** X9.  Once [process_request] has read the request id, whatever happens
    next: no [Exception] comes out of it (only a cancellation can), the
    load is back to what it was, the total counter is one more, and the
    request is counted as a success exactly when the executor returned
    normally, whether or not its completion report could be delivered;
    the latency added to the cumulative sum is then the time between the
    two readings of the clock, in milliseconds. *)
Theorem request_is_counted_by_the_outcome_of_the_executor
    (E : env) (m : machine) (fields : list (string * json))
    (request_id : json) :
  assoc "request_id" fields = Some request_id ->
  let r := process_request E (JObj fields) m in
  let executed :=
    result (simulate_browser_processing E (JObj fields) (begun m)) in
  (forall e, result r = Raise e -> is_Exception e = false) /\
  current_load (self (final r)) = current_load (self m) /\
  total_requests (self (final r)) = (total_requests (self m) + 1)%Z /\
  successful_requests (self (final r)) =
    (successful_requests (self m) +
     match executed with Ok _ => 1 | Raise _ => 0 end)%Z /\
  total_response_time (self (final r)) =
    match executed with
    | Ok _ => total_response_time (self m) + measured E m
    | Raise _ => total_response_time (self m)
    end.
Proof.
  intros Hid r executed.
  split; [exact (process_request_tame E fields request_id Hid m) |].
  destruct (attempt_settles E fields request_id m)
    as (rX & mX & trX & Hrun & Hself).
  assert (Hproc : runs (process_request E (JObj fields)) m rX
            (mkMachine (set_current_load (current_load (self mX) - 1)
                                         (self mX))
                       (posts mX) (ticks mX))
            ((Log INFO (ProcessingRequest request_id), self m) :: trX)).
  { unfold process_request. eapply runs_eq.
    - eapply runs_bind;
        [unfold subscript; rewrite Hid; apply runs_ret |].
      eapply runs_bind; [apply runs_emit |].
      eapply runs_bind; [apply runs_time |].
      eapply runs_bind; [apply runs_modify |].
      eapply runs_bind; [apply runs_modify |].
      eapply runs_try_finally; [exact Hrun | apply runs_modify].
    - reflexivity.
    - simpl. rewrite app_nil_r. reflexivity. }
  unfold runs in Hproc. unfold r. rewrite Hproc. cbn [final self].
  rewrite Hself. fold executed.
  destruct executed; cbn; repeat split; lia.
Qed.

(** A request whose completion report times out still counts as a
    success. *)
Lemma request_is_counted_by_the_outcome_of_the_executor_witness :
  let W := Sample.world [Sample.registered;
                         NetRaise (TransportError "timed out")] in
  let m := Sample.registered_worker in
  let fields := [ ("request_id", JStr "req-3"); ("model", JStr "gpt");
                  ("messages", JList []); ("stream", JBool false) ] in
  let r := process_request W (JObj fields) m in
  assoc "request_id" fields = Some (JStr "req-3") /\
  result (simulate_browser_processing W (JObj fields) (begun m)) = Ok tt /\
  map report_log [http W 1%nat] =
    [[(ERROR, ErrorSendingResponse (TransportError "timed out"))]] /\
  current_load (self (final r)) = 0%Z /\
  total_requests (self (final r)) = 1%Z /\
  successful_requests (self (final r)) = 1%Z /\
  total_response_time (self (final r)) = 0 + (1 - 0) * 1000.
Proof.
  intros W m fields r.
  do 3 (split; [reflexivity |]).
  destruct (request_is_counted_by_the_outcome_of_the_executor
              W m fields (JStr "req-3") eq_refl)
    as (_ & Hload & Htotal & Hsucc & Htime).
  split; [exact Hload |]. split; [exact Htotal |].
  split; [exact Hsucc | exact Htime].
Defined.

(** ** The two other paths of a request *)

Lemma runs_try_except_tame {A} (p : M A) (h : exn -> M A) (m m1 : machine)
    (r : res A) (tr : list event) :
  runs p m r m1 tr ->
  (forall e, r = Raise e -> is_Exception e = false) ->
  runs (try_except p h) m r m1 tr.
Proof.
  intros Hp Hr. destruct r as [a | e].
  - apply runs_try_except_ok. exact Hp.
  - apply runs_try_except_passed; [exact Hp | exact (Hr e eq_refl)].
Qed.

Lemma report_outcome_tame (reply : post_outcome) (e : exn) :
  report_outcome reply = Raise e -> is_Exception e = false.
Proof.
  unfold report_outcome. destruct reply as [e0 | st txt body];
    [| discriminate].
  destruct (is_Exception e0) eqn:He0; [discriminate |].
  intros H. injection H as <-. exact He0.
Qed.

Lemma acts_app (tr1 tr2 : list event) :
  acts (tr1 ++ tr2) = (acts tr1 ++ acts tr2)%list.
Proof. apply map_app. Qed.

Lemma acts_logs (lines : list (level * logmsg)) (c : client) :
  acts (map (fun line => (Log (fst line) (snd line), c)) lines) =
  map (fun line => Log (fst line) (snd line)) lines.
Proof.
  unfold acts. rewrite map_map. reflexivity.
Qed.

Lemma reports_logs (lines : list (level * logmsg)) (c : client) :
  reports (map (fun line => (Log (fst line) (snd line), c)) lines) = [].
Proof.
  induction lines as [| line lines IH]; [reflexivity | exact IH].
Qed.

Lemma sleeps_logs (lines : list (level * logmsg)) (c : client) :
  sleeps (map (fun line => (Log (fst line) (snd line), c)) lines) = [].
Proof.
  induction lines as [| line lines IH]; [reflexivity | exact IH].
Qed.

Section Paths.

Variable E : env.
Variable m : machine.
Hypothesis registered : truthy (session_id (self m)) = true.

Variable fields : list (string * json).
Variable request_id : json.
Hypothesis has_request_id : assoc "request_id" fields = Some request_id.

(** [process_request] around an executor that makes no POST and ends in
    the machine it was started in. *)
Lemma process_request_around_a_silent_executor (rX : res unit)
    (mX : machine) (trX : list event) :
  runs (attempt E (JObj fields) request_id (clock E (ticks m)))
       (begun m) rX mX trX ->
  runs (process_request E (JObj fields)) m rX
       (mkMachine (set_current_load (current_load (self mX) - 1) (self mX))
                  (posts mX) (ticks mX))
       ((Log INFO (ProcessingRequest request_id), self m) :: trX).
Proof.
  intros Hrun. unfold process_request. eapply runs_eq.
  - eapply runs_bind;
      [unfold subscript; rewrite has_request_id; apply runs_ret |].
    eapply runs_bind; [apply runs_emit |].
    eapply runs_bind; [apply runs_time |].
    eapply runs_bind; [apply runs_modify |].
    eapply runs_bind; [apply runs_modify |].
    eapply runs_try_finally; [exact Hrun | apply runs_modify].
  - reflexivity.
  - simpl. rewrite app_nil_r. reflexivity.
Qed.

(** A request that is not to be streamed. *)
Lemma process_request_plain (model messages s : json) :
  assoc "model" fields = Some model ->
  assoc "messages" fields = Some messages ->
  assoc "stream" fields = Some s ->
  truthy s = false ->
  let c1 := self (begun m) in
  let c2 := credited (measured E m) c1 in
  let reply := http E (posts m) in
  runs (process_request E (JObj fields)) m (report_outcome reply)
       (mkMachine (set_current_load (current_load c2 - 1) c2)
                  (S (posts m)) (S (S (ticks m))))
       ([ (Log INFO (ProcessingRequest request_id), self m);
          (Log INFO (SimulatingProcessing model), c1);
          (Sleep 1, c1);
          (Post (response_url c2) (Some (session_id c2))
                (completion_data request_id "Simulated response"
                                 (measured E m)), c2) ]
        ++ map (fun line => (Log (fst line) (snd line), c2))
               (report_log reply)).
Proof.
  intros Hmodel Hmsg Hstream Hs c1 c2 reply.
  eapply runs_eq.
  - apply process_request_around_a_silent_executor.
    unfold attempt.
    apply runs_try_except_tame; [| apply report_outcome_tame].
    eapply runs_bind.
    + unfold simulate_browser_processing.
      eapply runs_bind; [unfold subscript; rewrite Hmodel; apply runs_ret |].
      eapply runs_bind; [unfold subscript; rewrite Hmsg; apply runs_ret |].
      eapply runs_bind; [apply runs_get_or |].
      rewrite Hstream.
      eapply runs_bind; [apply runs_emit |].
      rewrite Hs. apply runs_emit.
    + eapply runs_bind; [apply runs_modify |].
      eapply runs_bind; [apply runs_time |].
      cbv zeta.
      eapply runs_bind; [apply runs_modify |].
      unfold send_completion. apply send_response_run. exact registered.
  - reflexivity.
  - reflexivity.
Qed.

(** A request that misses a key of the wire contract. *)
Lemma process_request_missing_key (k : string) :
  missing_key fields = Some k ->
  let c1 := self (begun m) in
  let reply := http E (posts m) in
  runs (process_request E (JObj fields)) m (report_outcome reply)
       (mkMachine (set_current_load (current_load c1 - 1) c1)
                  (S (posts m)) (S (ticks m)))
       ([ (Log INFO (ProcessingRequest request_id), self m);
          (Log ERROR (FailedToProcessRequest request_id (KeyError k)), c1);
          (Post (response_url c1) (Some (session_id c1))
                (error_data request_id (str_exn E (KeyError k))), c1) ]
        ++ map (fun line => (Log (fst line) (snd line), c1))
               (report_log reply)).
Proof.
  intros Hk c1 reply.
  assert (Hsim : runs (simulate_browser_processing E (JObj fields))
                      (begun m) (Raise (KeyError k)) (begun m) []).
  { unfold missing_key in Hk. unfold simulate_browser_processing.
    unfold subscript at 1.
    destruct (assoc "model" fields) as [model |].
    - eapply runs_eq; [eapply runs_bind; [apply runs_ret |]
                      | reflexivity | reflexivity].
      unfold subscript at 1.
      destruct (assoc "messages" fields) as [messages |];
        [discriminate Hk |].
      injection Hk as <-. apply runs_bind_raise, runs_raise.
    - injection Hk as <-. apply runs_bind_raise, runs_raise. }
  eapply runs_eq.
  - apply process_request_around_a_silent_executor.
    unfold attempt.
    eapply runs_try_except_caught with (e := KeyError k);
      [| reflexivity |].
    + apply runs_bind_raise. exact Hsim.
    + eapply runs_bind; [apply runs_emit |].
      unfold send_error. apply send_response_run. exact registered.
  - reflexivity.
  - reflexivity.
Qed.

End Paths.





(** ** Invariants, in general *)

Lemma hoare_post {A} (P : client -> Prop) (J : event -> Prop) (p : M A)
    (Q Q' : res A -> client -> Prop) :
  hoare P p Q J -> (forall r c, Q r c -> Q' r c) -> hoare P p Q' J.
Proof.
  intros Hp HQ m Hm. destruct (Hp m Hm) as [H1 H2].
  split; [apply HQ; exact H1 | exact H2].
Qed.

Lemma hoare_try_except {A} (P Qm : client -> Prop) (J : event -> Prop)
    (p : M A) (h : exn -> M A) :
  hoare P p (fun _ => Qm) J ->
  (forall e, keeps Qm J (h e)) ->
  hoare P (try_except p h) (fun _ => Qm) J.
Proof.
  intros Hp Hh m Hm. unfold try_except.
  destruct (Hp m Hm) as [HQ HJ].
  destruct (result (p m)) as [a | e]; [split; assumption |].
  destruct (is_Exception e); [| split; assumption].
  destruct (Hh e (final (p m)) HQ) as [HQ' HJ']. simpl.
  split; [exact HQ' | apply Forall_app; split; assumption].
Qed.

Section Walk.

Variable E : env.
Variable J : event -> Prop.

(** The report calls and the simulated executor keep any property of the
    worker, since they do not write its fields. *)
Lemma send_response_keeps (P : client -> Prop) (response_data : json) :
  admits P J -> keeps P J (send_response E response_data).
Proof.
  intros (Hlog & _ & Hrep).
  apply hoare_pointwise. intros c0 HP.
  assert (Hlog0 : forall lvl msg,
            keeps (fun c => c = c0) J (log lvl msg))
    by (intros lvl msg; apply keeps_emit; intros c ->; apply Hlog, HP).
  assert (Hpost : hoare (fun c => c = c0)
            (send_response E response_data) (fun _ c => c = c0) J).
  { unfold send_response. apply hoare_get_bind. intros c1 ->.
    destruct (negb (truthy (session_id c0))); [apply Hlog0 |].
    apply keeps_try_except; [| intros e; apply Hlog0].
    apply hoare_post_bind; [intros c ->; apply Hrep, HP | | auto].
    intros resp n _.
    destruct (negb (status resp =? 200)%Z); [apply Hlog0 | apply keeps_ret]. }
  intros m Hm. destruct (Hpost m Hm) as [Hfin Htr]. cbv beta in Hfin.
  split; [rewrite Hfin; exact HP | exact Htr].
Qed.

Lemma simulate_browser_processing_keeps (P : client -> Prop)
    (request_info : json) :
  admits P J -> keeps P J (simulate_browser_processing E request_info).
Proof.
  intros HJ. pose proof HJ as (Hlog & Hsleep & _).
  unfold simulate_browser_processing.
  apply keeps_bind; [apply keeps_subscript |]. intros model.
  apply keeps_bind; [apply keeps_subscript |]. intros messages.
  apply keeps_bind; [apply keeps_get_or |]. intros is_streaming.
  apply keeps_bind; [apply keeps_emit; intros c; apply Hlog |]. intros _.
  destruct (truthy is_streaming);
    [| apply keeps_emit; intros c; apply Hsleep].
  unfold stream_chunks. apply keeps_for_enumerate. intros i chunk.
  apply keeps_bind; [apply keeps_subscript |]. intros request_id.
  apply keeps_bind; [apply send_response_keeps; exact HJ |]. intros _.
  apply keeps_emit. intros c. apply Hsleep.
Qed.

(** [process_request] through three stages of the worker: [P0] outside,
    [P1] once the load and the total are incremented, [P2] once the
    success is counted. *)
Lemma process_request_stages (P0 P1 P2 : client -> Prop)
    (request_info : json) :
  admits P0 J -> admits P1 J -> admits P2 J ->
  (forall c, P0 c ->
     P1 (set_total_requests (total_requests c + 1)
           (set_current_load (current_load c + 1) c))) ->
  (forall c, P1 c ->
     P2 (set_successful_requests (successful_requests c + 1) c)) ->
  (forall q c, P2 c -> P2 (set_total_response_time q c)) ->
  (forall c, P1 c \/ P2 c -> P0 (set_current_load (current_load c - 1) c)) ->
  keeps P0 J (process_request E request_info).
Proof.
  intros H0 H1 H2 Hstart Hsucc Htime Hend.
  set (inside := fun c => P1 c \/ P2 c).
  assert (Hin : admits inside J).
  { destruct H1 as (L1 & S1 & R1), H2 as (L2 & S2 & R2).
    split; [intros lvl msg c [Hc | Hc]; auto |].
    split; [intros q c [Hc | Hc]; auto | intros d c [Hc | Hc]; auto]. }
  unfold process_request.
  apply keeps_bind; [apply keeps_subscript |]. intros request_id.
  apply keeps_bind;
    [apply keeps_emit; intros c; apply (proj1 H0) |]. intros _.
  apply hoare_time_bind. intros start_time.
  apply hoare_modify_bind with (P' := fun c => exists c0, P0 c0 /\
      c = set_current_load (current_load c0 + 1) c0).
  { intros c Hc. exists c. split; [exact Hc | reflexivity]. }
  apply hoare_modify_bind with (P' := P1).
  { intros c (c0 & Hc0 & ->). exact (Hstart c0 Hc0). }
  apply hoare_try_finally with (Qm := inside).
  - apply hoare_try_except.
    + eapply hoare_bind with (Qm := fun _ c => P1 c).
      * apply simulate_browser_processing_keeps. exact H1.
      * intros _.
        apply hoare_modify_bind with (P' := P2); [exact Hsucc |].
        apply hoare_time_bind. intros now. cbv zeta.
        apply hoare_modify_bind with (P' := P2);
          [intros c; apply Htime |].
        unfold send_completion.
        eapply hoare_post; [apply send_response_keeps; exact H2 |].
        intros r c Hc. right. exact Hc.
      * intros e c Hc. left. exact Hc.
    + intros e.
      apply keeps_bind;
        [apply keeps_emit; intros c; apply (proj1 Hin) |]. intros _.
      unfold send_error. apply send_response_keeps. exact Hin.
  - apply hoare_modify. exact Hend.
Qed.

End Walk.

Lemma hoare_pre {A} (P P' : client -> Prop) (J : event -> Prop) (p : M A)
    (Q : res A -> client -> Prop) :
  (forall c, P c -> P' c) -> hoare P' p Q J -> hoare P p Q J.
Proof.
  intros HP Hp m Hm. exact (Hp m (HP _ Hm)).
Qed.

Section Loop.

Variable E : env.
Variable I : client -> Prop.
Variable J : event -> Prop.

Hypothesis I_admits : admits I J.
Hypothesis J_poll : forall c now,
  I c -> J (Post (poll_url c) (Some (session_id c)) (poll_data c now), c).
Hypothesis I_update : forall c, I c -> I (update_poll_interval c).
Hypothesis I_interval : forall q c, I c -> I (set_current_poll_interval q c).
Hypothesis I_process : forall request_info,
  keeps I J (process_request E request_info).

Lemma keeps_log (lvl : level) (msg : logmsg) : keeps I J (log lvl msg).
Proof. apply keeps_emit. intros c. apply (proj1 I_admits). Qed.

Lemma keeps_sleep (q : Q) : keeps I J (sleep q).
Proof. apply keeps_emit. intros c. apply (proj1 (proj2 I_admits)). Qed.

Lemma poll_answered_keeps (resp : response) :
  keeps I J (poll_answered E resp).
Proof.
  unfold poll_answered.
  destruct (status resp =? 200)%Z; [| apply keeps_log].
  apply keeps_bind.
  { unfold response_json. destruct (json_body resp);
      [apply keeps_ret | apply keeps_raise]. }
  intros data.
  apply keeps_bind; [apply keeps_get_or |]. intros has_request.
  destruct (truthy has_request).
  - apply keeps_bind; [apply keeps_subscript | exact I_process].
  - apply keeps_get_bind. intros c'.
    apply keeps_bind; [apply keeps_get_or |]. intros recommended_interval.
    apply keeps_bind.
    { unfold min_30. destruct (as_number recommended_interval);
        [apply keeps_ret | apply keeps_raise]. }
    intros capped. apply hoare_modify. intros c. apply I_interval.
Qed.

Lemma poll_for_requests_keeps : keeps I J (poll_for_requests E).
Proof.
  apply hoare_pointwise. intros c0 H0. unfold poll_for_requests.
  apply hoare_get_bind. intros c1 ->.
  destruct (negb (truthy (session_id c0))).
  { apply hoare_pre with (P' := I); [intros c ->; exact H0 | apply keeps_log]. }
  apply hoare_time_bind. intros now.
  apply hoare_try_except; [| intros e; apply keeps_log].
  apply hoare_post_bind.
  - intros c ->. apply J_poll. exact H0.
  - intros resp n _.
    apply hoare_pre with (P' := I); [intros c ->; exact H0 |].
    exact (poll_answered_keeps resp).
  - intros e c ->. exact H0.
Qed.

Lemma polling_iteration_keeps : keeps I J (polling_iteration E).
Proof.
  unfold polling_iteration. apply keeps_try_except.
  - apply hoare_modify_bind with (P' := I); [exact I_update |].
    apply keeps_bind; [apply poll_for_requests_keeps |]. intros _.
    apply keeps_get_bind. intros c. apply keeps_sleep.
  - intros e. apply keeps_bind; [apply keeps_log |]. intros _.
    apply keeps_sleep.
Qed.

Lemma polling_turns_keeps (fuel : nat) : keeps I J (polling_turns E fuel).
Proof.
  induction fuel as [| fuel IH]; simpl; [apply keeps_ret |].
  apply keeps_get_bind. intros c.
  destruct (running c); [| apply keeps_ret].
  apply keeps_bind; [apply polling_iteration_keeps | intros _; exact IH].
Qed.

Lemma polling_loop_keeps (fuel : nat) : keeps I J (polling_loop E fuel).
Proof.
  unfold polling_loop.
  apply keeps_bind; [apply keeps_log | intros _; apply polling_turns_keeps].
Qed.

Hypothesis I_session : forall v c, I c -> I (set_session_id v c).
Hypothesis I_running : forall b c, I c -> I (set_running b c).
Hypothesis J_register : forall c,
  I c -> J (Post (register_url c) None (registration_data E c), c).

Lemma register_keeps : keeps I J (register E).
Proof.
  apply hoare_pointwise. intros c0 H0. unfold register.
  apply hoare_get_bind. intros c1 ->. cbv zeta.
  apply hoare_try_except.
  - apply hoare_post_bind.
    + intros c ->. apply J_register. exact H0.
    + intros resp n _.
      apply hoare_pre with (P' := I); [intros c ->; exact H0 |].
      destruct (status resp =? 200)%Z; [| apply keeps_raise].
      apply keeps_bind.
      { unfold response_json. destruct (json_body resp);
          [apply keeps_ret | apply keeps_raise]. }
      intros data. apply keeps_bind; [apply keeps_subscript |]. intros sid.
      apply hoare_modify_bind with (P' := I);
        [intros c; apply I_session | apply keeps_log].
    + intros e c ->. exact H0.
  - intros e. apply keeps_bind; [apply keeps_log |]. intros _.
    apply keeps_raise.
Qed.

Lemma start_keeps (fuel : nat) : keeps I J (start E fuel).
Proof.
  unfold start. apply keeps_get_bind. intros c.
  apply keeps_bind; [apply keeps_log |]. intros _.
  apply keeps_bind; [apply register_keeps |]. intros _.
  apply hoare_modify_bind with (P' := I); [intros c'; apply I_running |].
  apply polling_loop_keeps.
Qed.

End Loop.

(** ** The metrics *)

Lemma success_rate_range (c : client) :
  counters_sound c -> 0 <= get_success_rate c <= 100.
Proof.
  unfold counters_sound, get_success_rate. intros [Hs Ht].
  destruct (Z.eqb_spec (total_requests c) 0) as [H0 | H0]; [lra |].
  assert (Hpos : 0 < inject_Z (total_requests c)).
  { change 0 with (inject_Z 0). rewrite <- Zlt_Qlt. lia. }
  assert (Hlo : 0 <= inject_Z (successful_requests c)).
  { change 0 with (inject_Z 0). rewrite <- Zle_Qle. exact Hs. }
  assert (Hhi : inject_Z (successful_requests c)
                <= inject_Z (total_requests c)).
  { rewrite <- Zle_Qle. exact Ht. }
  assert (H1 : 0 <= inject_Z (successful_requests c)
                    / inject_Z (total_requests c)).
  { apply Qle_shift_div_l; [exact Hpos | lra]. }
  assert (H2 : inject_Z (successful_requests c)
               / inject_Z (total_requests c) <= 1).
  { apply Qle_shift_div_r; [exact Hpos | lra]. }
  lra.
Qed.

Lemma counters_sound_update (c : client) :
  counters_sound c -> counters_sound (update_poll_interval c).
Proof.
  unfold update_poll_interval.
  destruct (current_load c >=? max_concurrent c)%Z;
    [| destruct (current_load c =? 0)%Z]; intros H; exact H.
Qed.

Lemma success_rate_update (c : client) :
  get_success_rate (update_poll_interval c) = get_success_rate c.
Proof.
  unfold update_poll_interval.
  destruct (current_load c >=? max_concurrent c)%Z;
    [| destruct (current_load c =? 0)%Z]; reflexivity.
Qed.

(** In a state with sound counters, an effect that is not a poll is
    admissible. *)
Lemma metrics_observed_at (a : action) (c : client) :
  counters_sound c ->
  (forall hdr payload, a <> Post (poll_url c) hdr payload) ->
  metrics_observed (a, c).
Proof.
  intros Hc Ha. split; [exact Hc |]. split; [apply success_rate_range, Hc |].
  intros hdr payload H. exfalso. exact (Ha hdr payload H).
Qed.

Lemma metrics_admitted (P : client -> Prop) :
  (forall c, P c -> counters_sound c) -> admits P metrics_observed.
Proof.
  intros HP. split; [| split].
  - intros lvl msg c Hc. apply metrics_observed_at; [apply HP, Hc |].
    discriminate.
  - intros q c Hc. apply metrics_observed_at; [apply HP, Hc |]. discriminate.
  - intros d c Hc. apply metrics_observed_at; [apply HP, Hc |].
    intros hdr payload H. injection H as H _ _.
    exact (response_url_not_poll c H).
Qed.

Lemma process_request_keeps_the_counters_sound (E : env)
    (request_info : json) :
  keeps counters_sound metrics_observed (process_request E request_info).
Proof.
  apply process_request_stages
    with (P1 := fun c => (0 <= successful_requests c < total_requests c)%Z)
         (P2 := fun c => (1 <= successful_requests c <= total_requests c)%Z).
  - apply metrics_admitted. auto.
  - apply metrics_admitted. unfold counters_sound. intros c H. lia.
  - apply metrics_admitted. unfold counters_sound. intros c H. lia.
  - unfold counters_sound. intros c H. simpl. lia.
  - intros c H. simpl. lia.
  - intros q c H. exact H.
  - unfold counters_sound. intros c [H | H]; simpl; lia.
Qed.

(** X12.  In every run of a freshly made worker the counters are sound
    at each effect and when the observation ends: no more successes than
    attempts, no negative count.  So the success rate is always between
    0 and 100, and each poll reports, as [success_rate], the rate of the
    worker at that moment. *)
Theorem metrics_stay_sound (E : env) (url cid : string) (maxc : Z)
    (fuel : nat) :
  let r := start E fuel (boot (init url cid maxc)) in
  counters_sound (self (final r)) /\
  0 <= get_success_rate (self (final r)) <= 100 /\
  Forall metrics_observed (trace r).
Proof.
  intros r.
  assert (Hkeeps : keeps counters_sound metrics_observed (start E fuel)).
  { apply start_keeps.
    - apply metrics_admitted. auto.
    - intros c now Hc. split; [exact Hc |].
      split; [apply success_rate_range, Hc |].
      intros hdr payload H. simpl in H. injection H as _ <-. reflexivity.
    - exact counters_sound_update.
    - intros q c H. exact H.
    - apply process_request_keeps_the_counters_sound.
    - intros v c H. exact H.
    - intros b c H. exact H.
    - intros c Hc. apply metrics_observed_at; [exact Hc |].
      intros hdr payload H. injection H as H _ _.
      exact (register_url_not_poll c H). }
  assert (Hinit : counters_sound (init url cid maxc))
    by (unfold counters_sound; simpl; lia).
  destruct (Hkeeps (boot (init url cid maxc)) Hinit) as [Hfin Htr].
  split; [exact Hfin |]. split; [apply success_rate_range, Hfin | exact Htr].
Qed.

(** ** The identity of the worker *)

Lemma same_identity_refl (c : client) : same_identity c c.
Proof. repeat split. Qed.

Lemma poll_url_same (c0 c : client) :
  same_identity c0 c -> poll_url c = poll_url c0.
Proof. intros (H & _). unfold poll_url. rewrite H. reflexivity. Qed.

Lemma response_url_same (c0 c : client) :
  same_identity c0 c -> response_url c = response_url c0.
Proof. intros (H & _). unfold response_url. rewrite H. reflexivity. Qed.

Lemma identity_admitted (c0 : client) :
  admits (same_identity c0) (identity_observed c0).
Proof.
  split; [| split].
  - intros lvl msg c Hc. split; [exact Hc |]. intros url hdr payload H.
    discriminate H.
  - intros q c Hc. split; [exact Hc |]. intros url hdr payload H.
    discriminate H.
  - intros d c Hc. split; [exact Hc |]. intros url hdr payload H.
    simpl in H. injection H as <- <- _.
    split; [f_equal; exact (proj1 (proj2 (proj2 Hc))) |].
    right. exact (response_url_same c0 c Hc).
Qed.

(** X13.  The polling loop never changes the identity of the worker:
    base URL, client id, session id, concurrency cap and base interval
    are, at each effect and at the end, what they were when the loop was
    entered (there is no second registration); and every POST of the loop
    goes to the poll or to the response endpoint of that base URL, under
    that session id. *)
Theorem polling_keeps_the_identity_of_the_worker (E : env) (m : machine)
    (fuel : nat) :
  let r := polling_loop E fuel m in
  same_identity (self m) (self (final r)) /\
  Forall (identity_observed (self m)) (trace r).
Proof.
  intros r. set (c0 := self m).
  assert (Hupdate : forall c, same_identity c0 c ->
                              same_identity c0 (update_poll_interval c)).
  { intros c H. unfold update_poll_interval.
    destruct (current_load c >=? max_concurrent c)%Z;
      [| destruct (current_load c =? 0)%Z]; exact H. }
  assert (Hkeeps : keeps (same_identity c0) (identity_observed c0)
                         (polling_loop E fuel)).
  { apply polling_loop_keeps.
    - apply identity_admitted.
    - intros c now Hc. split; [exact Hc |]. intros url hdr payload H.
      simpl in H. injection H as <- <- _.
      split; [f_equal; exact (proj1 (proj2 (proj2 Hc))) |].
      left. exact (poll_url_same c0 c Hc).
    - exact Hupdate.
    - intros q c H. exact H.
    - intros request_info.
      apply process_request_stages
        with (P1 := same_identity c0) (P2 := same_identity c0);
        first [ apply identity_admitted
              | intros c [H | H]; exact H
              | intros q c H; exact H
              | intros c H; exact H ]. }
  exact (Hkeeps m (same_identity_refl c0)).
Qed.

(** ** The shape of a turn *)

Lemma polling_iteration_run (E : env) (m : machine) :
  let polled :=
    poll_for_requests E
      (mkMachine (update_poll_interval (self m)) (posts m) (ticks m)) in
  match result polled with
  | Ok _ =>
      runs (polling_iteration E) m (Ok tt) (final polled)
           (trace polled ++
            [(Sleep (current_poll_interval (self (final polled))),
              self (final polled))])
  | Raise e =>
      runs (polling_iteration E) m (Raise e) (final polled) (trace polled)
      /\ is_Exception e = false
  end.
Proof.
  intros polled.
  pose proof (runs_run (poll_for_requests E)
                (mkMachine (update_poll_interval (self m)) (posts m)
                           (ticks m))) as Hp.
  fold polled in Hp.
  unfold runs at 1 2. rewrite polling_iteration_is_its_try_block.
  destruct (result polled) as [u | e] eqn:Hres.
  - destruct u. eapply runs_eq.
    + eapply runs_bind; [apply runs_modify |].
      eapply runs_bind; [exact Hp |].
      eapply runs_bind; [apply runs_get_self | apply runs_emit].
    + reflexivity.
    + reflexivity.
  - split; [| exact (poll_for_requests_raises_no_Exception E _ e Hres)].
    eapply runs_eq.
    + eapply runs_bind; [apply runs_modify |].
      apply runs_bind_raise. exact Hp.
    + reflexivity.
    + reflexivity.
Qed.

Lemma turn_shape_tame (E : env) (m : machine) (e : exn) :
  result (polling_iteration E m) = Raise e -> is_Exception e = false.
Proof.
  pose proof (polling_iteration_run E m) as H. cbv zeta in H.
  destruct (result (poll_for_requests E _)) as [u | e0].
  - unfold runs in H. rewrite H. discriminate.
  - destruct H as [H He]. unfold runs in H. rewrite H.
    intros Heq. injection Heq as <-. exact He.
Qed.


(** X15.  A cancellation ends the loop: when a turn of a running worker
    is cut by an exception, which can only be a cancellation, the loop
    ends with that turn, by the same exception and with no further
    effect, whatever the number of turns left to observe. *)
Theorem cancelled_turn_ends_the_loop (E : env) (m : machine) (e : exn)
    (fuel : nat) :
  running (self m) = true ->
  result (polling_iteration E m) = Raise e ->
  polling_turns E (S fuel) m = polling_iteration E m /\
  is_Exception e = false.
Proof.
  intros Hrun Hres.
  pose proof (runs_run (polling_iteration E) m) as Hit.
  rewrite Hres in Hit.
  assert (Hturns : runs (polling_turns E (S fuel)) m (Raise e)
                        (final (polling_iteration E m))
                        (trace (polling_iteration E m))).
  { simpl polling_turns. eapply runs_eq.
    - eapply runs_bind; [apply runs_get_self |].
      rewrite Hrun. apply runs_bind_raise. exact Hit.
    - reflexivity.
    - reflexivity. }
  unfold runs in Hturns, Hit. split; [rewrite Hturns, Hit; reflexivity |].
  pose proof (turn_shape_tame E m e Hres) as He. exact He.
Qed.

(** The dispatcher assigns a streaming request and the worker is cancelled
    while it sends the first chunk: the loop, observed for up to four
    turns, ends in its first one, with the load given back and the request
    counted but not answered. *)
Lemma cancelled_turn_ends_the_loop_witness :
  let W := Sample.world [ Sample.registered;
                          Sample.assigned Sample.streaming_request;
                          NetRaise CancelledError ] in
  let m := Sample.registered_worker in
  running (self m) = true /\
  result (polling_iteration W m) = Raise CancelledError /\
  polling_turns W 4 m = polling_iteration W m /\
  is_Exception CancelledError = false.
Proof.
  intros W m.
  do 2 (split; [vm_compute; reflexivity |]).
  exact (cancelled_turn_ends_the_loop W m CancelledError 3
           eq_refl eq_refl).
Defined.

(** ** The direction of the adaptive interval *)

(** X16.  [update_poll_interval] moves the interval with the load: for an
    idle worker (load zero, below its cap) whose interval is at least one
    second the new interval is no longer than the old one and still at
    least one second; for a worker at or above its cap whose interval is
    between zero and thirty seconds the new interval is no shorter than
    the old one and still at most thirty seconds. *)
Theorem update_poll_interval_moves_with_the_load (c : client) :
  ((current_load c = 0)%Z -> (0 < max_concurrent c)%Z ->
   1 <= current_poll_interval c ->
   1 <= current_poll_interval (update_poll_interval c) /\
   current_poll_interval (update_poll_interval c)
     <= current_poll_interval c) /\
  ((max_concurrent c <= current_load c)%Z ->
   0 <= current_poll_interval c -> current_poll_interval c <= 30 ->
   current_poll_interval c
     <= current_poll_interval (update_poll_interval c) /\
   current_poll_interval (update_poll_interval c) <= 30).
Proof.
  unfold update_poll_interval. split.
  - intros H0 Hmax Hi.
    destruct (Z.geb_spec (current_load c) (max_concurrent c)) as [Hge | _];
      [lia |].
    destruct (Z.eqb_spec (current_load c) 0) as [_ | Hne]; [| contradiction].
    simpl.
    destruct (Q.max_spec (current_poll_interval c * (4 # 5)) 1)
      as [[H1 ->] | [H1 ->]]; split; lra.
  - intros Hcap Hlo Hhi.
    destruct (Z.geb_spec (current_load c) (max_concurrent c)) as [_ | Hlt];
      [| lia].
    simpl.
    destruct (Q.min_spec (current_poll_interval c * (3 # 2)) 30)
      as [[H1 ->] | [H1 ->]]; split; lra.
Qed.

(** A fresh worker, idle, goes from 5 to 4 seconds; the same worker with
    five requests in flight goes from 5 to 7.5 seconds. *)
Lemma update_poll_interval_moves_with_the_load_witness :
  let idle := init "http://dispatcher/" "worker-1" 5 in
  let busy := set_current_load 5 idle in
  (1 <= current_poll_interval (update_poll_interval idle) /\
   current_poll_interval (update_poll_interval idle)
     <= current_poll_interval idle) /\
  (current_poll_interval busy
     <= current_poll_interval (update_poll_interval busy) /\
   current_poll_interval (update_poll_interval busy) <= 30).
Proof.
  intros idle busy. split.
  - apply (proj1 (update_poll_interval_moves_with_the_load idle)).
    + reflexivity.
    + reflexivity.
    + vm_compute. discriminate.
  - apply (proj2 (update_poll_interval_moves_with_the_load busy)).
    + vm_compute. discriminate.
    + vm_compute. discriminate.
    + vm_compute. discriminate.
Defined.
